(** * The Kaiser-Squires smoothing gridsearch of planar_reconstruction.ipynb

    The cell under "Compute the optimally smoothed Kaiser-Squires
    estimator" scans the Gaussian smoothing scales 1.0, 2.0, ..., 30.0, keeps the scale whose smoothed Kaiser-Squires map
    has the largest SNR against the true convergence map, and blurs the
    map once more at that scale.

    The cell is embedded as a program of a small state-and-exception monad
    over the notebook's namespace.  [scipy.ndimage.gaussian_filter] and
    [darkmappy.validation.snr] are calls into libraries: they are taken as
    parameters, may raise, and every call is recorded in a call log. *)

From Stdlib Require Import ZArith List Lia Bool.
Import ListNotations.
Open Scope Z_scope.

(** ** Python values *)

(** Exceptions.  The cell has no [raise]; an exception can only come out
    of a library call, or of reading a name that is not bound. *)
Inductive exn : Type :=
| DimensionMismatch
| InvalidParameter
| LibraryError
| NameError.

Inductive result (A : Type) : Type :=
| Ok (a : A)
| Raise (e : exn).
Arguments Ok {A} a.
Arguments Raise {A} e.

(** A two-dimensional ndarray, row by row. *)
Definition ndarray (A : Type) : Type := list (list A).

Definition shape {A : Type} (a : ndarray A) : nat * nat :=
  (length a, match a with [] => 0%nat | row :: _ => length row end).

(** [np.real]: the real part of every entry.  A complex entry is a pair
    (real part, imaginary part); on an array that is already real,
    [np.real] gives the array back. *)
Class RealPart (R A : Type) : Type := re : A -> R.

#[export] Instance re_complex (R : Type) : RealPart R (R * R) := fst.

Definition np_real {R A : Type} `{RealPart R A} (a : ndarray A) : ndarray R :=
  map (map re) a.

(** [range(n)]: 0, 1, ..., n-1, and nothing when n <= 0. *)
Definition range (n : Z) : list Z := map Z.of_nat (seq 0 (Z.to_nat n)).

(** [float(z)] of an integer: the double of the same value (exact for the
    integers of the scan); a smoothing scale is kept as that integer. *)
Definition float (z : Z) : Z := z.

Section Gridsearch.

(** Float scalars, and the values the scorer returns. *)
Variable R : Type.
Variable Score : Type.

(** The literal [0] the running maximum starts from, and Python's [>]
    on scores. *)
Variable zero : Score.
Variable gt : Score -> Score -> bool.

(** [ndimage.gaussian_filter(input, sigma)] and [stats.snr(truth, estimate)]. *)
Variable gaussian_filter : ndarray R -> Z -> result (ndarray R).
Variable snr : ndarray R -> ndarray R -> result Score.

(** [np.real] of a real array. *)
Definition np_real_id (a : ndarray R) : ndarray R := a.

(** A library call, as the call log records it. *)
Inductive event : Type :=
| GaussianFilter (input : ndarray R) (sigma : Z)
| Snr (truth estimate : ndarray R).

(** The notebook's namespace when the cell starts, with the call log.
    [ks] and [kappa_true] come from earlier cells and are complex;
    [snr_max] and [smooth_max] hold whatever an earlier run of the cell
    left; the other names may still be unbound. *)
Record world : Type := World {
  ks : ndarray (R * R);
  kappa_true : ndarray (R * R);
  snr_max : Score;
  smooth_max : Z;
  smoothed_ks : option (ndarray R);
  snr_iter : option Score;
  optimal_ks : option (ndarray R);
  calls : list event
}.

Definition set_snr_max (v : Score) (w : world) : world :=
  World (ks w) (kappa_true w) v (smooth_max w) (smoothed_ks w)
        (snr_iter w) (optimal_ks w) (calls w).
Definition set_smooth_max (s : Z) (w : world) : world :=
  World (ks w) (kappa_true w) (snr_max w) s (smoothed_ks w)
        (snr_iter w) (optimal_ks w) (calls w).
Definition set_smoothed_ks (f : ndarray R) (w : world) : world :=
  World (ks w) (kappa_true w) (snr_max w) (smooth_max w) (Some f)
        (snr_iter w) (optimal_ks w) (calls w).
Definition set_snr_iter (v : Score) (w : world) : world :=
  World (ks w) (kappa_true w) (snr_max w) (smooth_max w) (smoothed_ks w)
        (Some v) (optimal_ks w) (calls w).
Definition set_optimal_ks (f : ndarray R) (w : world) : world :=
  World (ks w) (kappa_true w) (snr_max w) (smooth_max w) (smoothed_ks w)
        (snr_iter w) (Some f) (calls w).
Definition log (ev : event) (w : world) : world :=
  World (ks w) (kappa_true w) (snr_max w) (smooth_max w) (smoothed_ks w)
        (snr_iter w) (optimal_ks w) (calls w ++ [ev]).

(** ** The monad of cell code *)

Definition M (A : Type) : Type := world -> result A * world.

Definition ret {A : Type} (a : A) : M A := fun w => (Ok a, w).

Definition bind {A B : Type} (m : M A) (k : A -> M B) : M B :=
  fun w =>
    match m w with
    | (Ok a, w') => k a w'
    | (Raise e, w') => (Raise e, w')
    end.

Definition read {A : Type} (var : world -> A) : M A := fun w => (Ok (var w), w).

(** Reading a name that may be unbound. *)
Definition lookup {A : Type} (var : world -> option A) : M A :=
  fun w =>
    match var w with
    | Some a => (Ok a, w)
    | None => (Raise NameError, w)
    end.

Definition assign (set : world -> world) : M unit := fun w => (Ok tt, set w).

(** A library call: logged, then its value or its exception. *)
Definition call {A : Type} (ev : event) (r : result A) : M A :=
  fun w => (r, log ev w).

Notation "x <- m ;; k" := (bind m (fun x => k))
  (at level 61, m at next level, right associativity).
Notation "m ;;; k" := (bind m (fun _ => k))
  (at level 61, right associativity).

(** [for i in l: body]. *)
Fixpoint for_ (l : list Z) (body : Z -> M unit) : M unit :=
  match l with
  | [] => ret tt
  | i :: l' => body i ;;; for_ l' body
  end.

(** ** The cell *)

(** Lines 197-201, one pass of the loop. *)
Definition loop_body (i : Z) : M unit :=
  raw <- read ks ;;
  smoothed <- call (GaussianFilter (np_real raw) (float (i + 1)))
                   (gaussian_filter (np_real raw) (float (i + 1))) ;;
  assign (set_smoothed_ks smoothed) ;;;
  truth <- read kappa_true ;;
  candidate <- lookup smoothed_ks ;;
  v <- call (Snr (np_real truth) (np_real_id candidate))
            (snr (np_real truth) (np_real_id candidate)) ;;
  assign (set_snr_iter v) ;;;
  score <- lookup snr_iter ;;
  best <- read snr_max ;;
  if gt score best
  then assign (set_snr_max score) ;;; assign (set_smooth_max (float (i + 1)))
  else ret tt.

(** Lines 194-201: the scan over [range(max_scale_steps)]. *)
Definition scan (max_scale_steps : Z) : M unit :=
  assign (set_snr_max zero) ;;;
  assign (set_smooth_max 0) ;;;
  for_ (range max_scale_steps) loop_body.

(** Line 203: the map blurred at the scale the scan kept. *)
Definition recompute : M unit :=
  raw <- read ks ;;
  s <- read smooth_max ;;
  best <- call (GaussianFilter (np_real raw) s) (gaussian_filter (np_real raw) s) ;;
  assign (set_optimal_ks best).

(** The gridsearch, with the number of steps as its parameter. *)
Definition gridsearch (max_scale_steps : Z) : M unit :=
  scan max_scale_steps ;;; recompute.

(** The cell as the notebook has it: [range(30)]. *)
Definition cell : M unit := gridsearch 30.

End Gridsearch.

Arguments np_real_id {R} a.
Arguments GaussianFilter {R} input sigma.
Arguments Snr {R} truth estimate.
Arguments World {R Score}.
Arguments ks {R Score} w.
Arguments kappa_true {R Score} w.
Arguments snr_max {R Score} w.
Arguments smooth_max {R Score} w.
Arguments smoothed_ks {R Score} w.
Arguments snr_iter {R Score} w.
Arguments optimal_ks {R Score} w.
Arguments calls {R Score} w.
Arguments set_snr_max {R Score} v w.
Arguments set_smooth_max {R Score} s w.
Arguments set_smoothed_ks {R Score} f w.
Arguments set_snr_iter {R Score} v w.
Arguments set_optimal_ks {R Score} f w.
Arguments log {R Score} ev w.
Arguments ret {R Score A} a w.
Arguments bind {R Score A B} m k w.
Arguments read {R Score A} var w.
Arguments lookup {R Score A} var w.
Arguments assign {R Score} set w.
Arguments call {R Score A} ev r w.
Arguments for_ {R Score} l body.
Arguments loop_body {R Score} gt gaussian_filter snr i.
Arguments scan {R Score} zero gt gaussian_filter snr max_scale_steps.
Arguments recompute {R Score} gaussian_filter.
Arguments gridsearch {R Score} zero gt gaussian_filter snr max_scale_steps.
Arguments cell {R Score} zero gt gaussian_filter snr.

(** ** Functional summaries of the scan *)

Section Summaries.

Context {R Score : Type}.
Variable zero : Score.
Variable gt : Score -> Score -> bool.
Variable gaussian_filter : ndarray R -> Z -> result (ndarray R).
Variable snr : ndarray R -> ndarray R -> result Score.

(** What the cell hands on: the scale, the map blurred at it, the score. *)
Definition outputs (w : @world R Score) : Z * option (ndarray R) * Score :=
  (smooth_max w, optimal_ks w, snr_max w).

(** The comparison of lines 199-201 on a running (score, scale) pair,
    for a pass whose score is [V (i + 1)]. *)
Definition keep_best (V : Z -> Score) (acc : Score * Z) (i : Z) : Score * Z :=
  if gt (V (i + 1)) (fst acc) then (V (i + 1), i + 1) else acc.

(** The running pair after the passes of [l]. *)
Definition running_best (V : Z -> Score) (l : list Z) (acc : Score * Z)
  : Score * Z :=
  fold_left (keep_best V) l acc.

(** The log of one pass and of the passes of [l], when the blur at
    scale [s] gives [B s]. *)
Definition pass_calls (raw truth : ndarray R) (B : Z -> ndarray R) (i : Z)
  : list (@event R) :=
  [GaussianFilter raw (i + 1); Snr truth (B (i + 1))].

Definition scan_calls (raw truth : ndarray R) (B : Z -> ndarray R) (l : list Z)
  : list (@event R) :=
  flat_map (pass_calls raw truth B) l.

(** The candidate scales as the spec counts them: 1, 2, ..., n. *)
Definition steps (n : Z) : list Z := map Z.of_nat (seq 1 (Z.to_nat n)).

(** The search as the spec words it (4.1 and 9): a fold over the steps
    1..n carrying the best scale, its score and its smoothed field,
    replaced on a strictly greater score only, and started from scale 0,
    score 0 and the estimate without smoothing.  The two precondition
    checks of 4.1 are not part of it. *)
Fixpoint tracked_scan (raw truth : ndarray R) (l : list Z)
         (acc : Z * ndarray R * Score) : result (Z * ndarray R * Score) :=
  match l with
  | [] => Ok acc
  | s :: l' =>
      match gaussian_filter raw s with
      | Raise e => Raise e
      | Ok smoothed =>
          match snr truth smoothed with
          | Raise e => Raise e
          | Ok v =>
              tracked_scan raw truth l'
                (if gt v (snd acc) then (s, smoothed, v) else acc)
          end
      end
  end.

Definition tracked_search (raw truth : ndarray R) (n : Z)
  : result (Z * ndarray R * Score) :=
  tracked_scan raw truth (steps n) (0, raw, zero).

(** Two namespaces that agree on all the scan reads: the real parts of
    the two inputs and the running pair. *)
Definition agree (w1 w2 : @world R Score) : Prop :=
  np_real (ks w1) = np_real (ks w2)
  /\ np_real (kappa_true w1) = np_real (kappa_true w2)
  /\ snr_max w1 = snr_max w2
  /\ smooth_max w1 = smooth_max w2.

(** The library calls of a run of [n] steps all return: the blur of
    [raw] at every scale [s] of 0..n gives [B s], and the scorer gives
    [V s] on the candidate of every scale [s] of 1..n. *)
Definition valid_run (raw truth : ndarray R) (B : Z -> ndarray R)
           (V : Z -> Score) (n : Z) : Prop :=
  (forall s, 0 <= s <= n -> gaussian_filter raw s = Ok (B s)) /\
  (forall s, 1 <= s <= n -> snr truth (B s) = Ok (V s)).

End Summaries.

(** ** An integer instance, for running the cell on small arrays *)

Module Demo.

(** Modelled from the spec: GaussianBlur (section 6) is scipy's and not
    part of the notebook.  Stand-in over integer fields: same shape,
    scale 0 gives the field back, a larger scale flattens more (every
    entry divided by sigma + 1), a negative scale is refused
    (section 7). *)
Definition blur (x : ndarray Z) (sigma : Z) : result (ndarray Z) :=
  if sigma <? 0 then Raise InvalidParameter
  else Ok (map (map (fun v => v / (sigma + 1))) x).

Definition sum_sq (l : list Z) : Z := fold_right (fun v a => v * v + a) 0 l.

Definition shape_eqb (a b : ndarray Z) : bool :=
  (Nat.eqb (fst (shape a)) (fst (shape b))
   && Nat.eqb (snd (shape a)) (snd (shape b)))%bool.

(** Modelled from the spec: SNRScore (section 6) lives in
    darkmappy.validation, which the notebook only calls.  Stand-in:
    signal power minus residual power (positive exactly when the
    estimate is closer to the truth than the zero map is), and
    DimensionMismatch on fields of differing shapes (section 7). *)
Definition score (truth estimate : ndarray Z) : result Z :=
  if shape_eqb truth estimate
  then Ok (sum_sq (concat truth)
           - sum_sq (map (fun p => fst p - snd p)
                         (combine (concat truth) (concat estimate))))
  else Raise DimensionMismatch.

(** A real field seen as a complex one, as [+ 0j] does, and with another
    imaginary part. *)
Definition complex (im : Z) (x : ndarray Z) : ndarray (Z * Z) :=
  map (map (fun v => (v, im))) x.

Definition zeros (rows cols : nat) : ndarray Z := repeat (repeat 0 cols) rows.

(** A namespace in which only [ks] and [kappa_true] are bound. *)
Definition fresh (ks0 kappa0 : ndarray (Z * Z)) : @world Z Z :=
  World ks0 kappa0 0 0 None None None [].

Definition run (n : Z) (w : @world Z Z) : result unit * @world Z Z :=
  gridsearch 0 Z.gtb blur score n w.

(** The candidate of scale [s] and its score under the two stand-ins. *)
Definition candidate (raw : ndarray Z) (s : Z) : ndarray Z :=
  map (map (fun v => v / (s + 1))) raw.

Definition candidate_score (truth raw : ndarray Z) (s : Z) : Z :=
  match score truth (candidate raw s) with
  | Ok v => v
  | Raise _ => 0
  end.

(** Estimate 15 against truth 3: the candidates of scales 1..5 are
    7, 5, 3, 3, 2 and score -7, 5, 9, 9, 8. *)
Definition w_tie : @world Z Z := fresh (complex 0 [[15]]) (complex 0 [[3]]).

(** Estimate -4 against truth 1: the candidates of scales 1 and 2 are
    both -2 and both score -8. *)
Definition w_low : @world Z Z := fresh (complex 0 [[-4]]) (complex 0 [[1]]).

(** A 4x4 estimate against an 8x8 truth. *)
Definition w_mismatch : @world Z Z :=
  fresh (complex 0 (zeros 4 4)) (complex 0 (zeros 8 8)).

(** The inputs of [w_tie] in a namespace an earlier run has used. *)
Definition w_stale : @world Z Z :=
  World (complex 0 [[15]]) (complex 0 [[3]]) 42 17 (Some [[1]]) (Some 5)
        (Some [[8]]) [GaussianFilter [[15]] 17].

(** The real parts of [w_tie] with other imaginary parts. *)
Definition w_imag : @world Z Z := fresh (complex 7 [[15]]) (complex (-2) [[3]]).

End Demo.

(** ** The rest of the notebook: the estimate, the plots, the comparison *)

From Stdlib Require String.

(** The panel titles of the comparison figure (line 225). *)
Module Titles.
Import String.
Local Open Scope string_scope.

Definition titles : list string := ["Truth"; "KS"; "KS Optimal"; "DarkMappy"].

End Titles.

(** Exceptions of cell code outside the gridsearch: those above, and the
    one of a list index out of range. *)
Inductive pyexn : Type :=
| Cell (e : exn)
| IndexError.

Inductive outcome (A : Type) : Type :=
| Done (a : A)
| Failed (e : pyexn).
Arguments Done {A} a.
Arguments Failed {A} e.

Section Notebook.

Context {R Score : Type}.

(** The shear data [data] of the simulation cell. *)
Variable Data : Type.

Variable zero : Score.
Variable gt : Score -> Score -> bool.
Variable gaussian_filter : ndarray R -> Z -> result (ndarray R).
Variable snr : ndarray R -> ndarray R -> result Score.

(** [darkmapper_estimator.phi.ks_estimate(data)]. *)
Variable ks_estimate : Data -> result (ndarray (R * R)).

(** An array whose entries may be real or complex, as [make_plot] and
    [np.real] take it. *)
Inductive pyarray : Type :=
| RealArray (a : ndarray R)
| ComplexArray (a : ndarray (R * R)).

Definition real_part (x : pyarray) : ndarray R :=
  match x with
  | RealArray a => np_real_id a
  | ComplexArray a => np_real a
  end.

(** [stats.analyse(truth, x)], which returns the pair (snr, p_corr);
    [np.min(a)]; [round(v, 2)]. *)
Variable analyse : ndarray (R * R) -> pyarray -> result (Score * Score).
Variable np_min : ndarray R -> result R.
Variable round2 : Score -> Score.

(** What the cells do besides the gridsearch's two library calls, in the
    order done: the other library calls, the drawing calls and the
    printed line.  Drawing and printing are recorded only; fixed keyword
    arguments (colour map, vmax, font sizes) are left out. *)
Inductive action : Type :=
| KsEstimate (d : Data)
| Imshow (img : ndarray R)
| AxisOff
| PltShow
| Analyse (truth : ndarray (R * R)) (x : pyarray)
| Print (iteration : Z) (snr_value p_corr : Score)
| Subplots
| NpMin (a : ndarray R)
| AxImshow (i : Z) (img : ndarray R) (vmin : R)
| SetTitle (i : Z) (title : String.string)
| SetXLabel (i : Z) (rounded : Score)
| HideXTicks (i : Z)
| HideYTicks (i : Z).

(** The namespace of the gridsearch cell, the two other names the cells
    below read, and the record of actions. *)
Record session : Type := Session {
  vars : @world R Score;
  data : Data;
  sol : option pyarray;
  trace : list action
}.

Definition set_vars (w : @world R Score) (s : session) : session :=
  Session w (data s) (sol s) (trace s).
Definition record (a : action) (s : session) : session :=
  Session (vars s) (data s) (sol s) (trace s ++ [a]).

Definition set_ks (k : ndarray (R * R)) (w : @world R Score) : @world R Score :=
  World k (kappa_true w) (snr_max w) (smooth_max w) (smoothed_ks w)
        (snr_iter w) (optimal_ks w) (calls w).

(** *** The monad of the other cells *)

Definition N (A : Type) : Type := session -> outcome A * session.

Definition nret {A : Type} (a : A) : N A := fun s => (Done a, s).

Definition nbind {A B : Type} (m : N A) (k : A -> N B) : N B :=
  fun s =>
    match m s with
    | (Done a, s') => k a s'
    | (Failed e, s') => (Failed e, s')
    end.

(** Gridsearch-cell code run on the namespace of the session. *)
Definition lift {A : Type} (m : M R Score A) : N A :=
  fun s =>
    match m (vars s) with
    | (Ok a, w') => (Done a, set_vars w' s)
    | (Raise e, w') => (Failed (Cell e), set_vars w' s)
    end.

Definition nread {A : Type} (var : session -> A) : N A := fun s => (Done (var s), s).

Definition nlookup {A : Type} (var : session -> option A) : N A :=
  fun s =>
    match var s with
    | Some a => (Done a, s)
    | None => (Failed (Cell NameError), s)
    end.

(** A drawing or printing call. *)
Definition emit (a : action) : N unit := fun s => (Done tt, record a s).

(** A library call: recorded, then its value or its exception. *)
Definition ncall {A : Type} (a : action) (r : result A) : N A :=
  fun s =>
    (match r with Ok x => Done x | Raise e => Failed (Cell e) end, record a s).

(** [l[i]]: a negative index counts from the end. *)
Definition index {A : Type} (l : list A) (i : Z) : N A :=
  fun s =>
    let k := if i <? 0 then Z.of_nat (length l) + i else i in
    match (if k <? 0 then None else nth_error l (Z.to_nat k)) with
    | Some a => (Done a, s)
    | None => (Failed IndexError, s)
    end.

Notation "x <- m ;; k" := (nbind m (fun x => k))
  (at level 61, m at next level, right associativity).
Notation "m ;;; k" := (nbind m (fun _ => k))
  (at level 61, right associativity).

Fixpoint nfor (l : list Z) (body : Z -> N unit) : N unit :=
  match l with
  | [] => nret tt
  | i :: l' => body i ;;; nfor l' body
  end.

(** *** The cells *)

(** Lines 74-81. *)
Definition make_plot (x : pyarray) (iteration : Z) (show_stats : bool) : N unit :=
  emit (Imshow (real_part x)) ;;;
  emit AxisOff ;;;
  emit PltShow ;;;
  if show_stats
  then
    truth <- nread (fun s => kappa_true (vars s)) ;;
    p <- ncall (Analyse truth x) (analyse truth x) ;;
    emit (Print iteration (fst p) (snd p))
  else nret tt.

(** Lines 191-206, the whole cell around the gridsearch, with the number
    of steps as its parameter. *)
Definition ks_cell_steps (max_scale_steps : Z) : N unit :=
  d <- nread data ;;
  k <- ncall (KsEstimate d) (ks_estimate d) ;;
  lift (assign (set_ks k)) ;;;
  lift (gridsearch zero gt gaussian_filter snr max_scale_steps) ;;;
  best <- nlookup (fun s => optimal_ks (vars s)) ;;
  scale <- nread (fun s => smooth_max (vars s)) ;;
  make_plot (RealArray best) scale true.

Definition ks_cell : N unit := ks_cell_steps 30.

(** Lines 229-235, one panel of the comparison figure. *)
Definition panel (est : list (ndarray R)) (i : Z) : N unit :=
  img <- index est i ;;
  reference <- index est 0 ;;
  vmin <- ncall (NpMin reference) (np_min reference) ;;
  emit (AxImshow i img vmin) ;;;
  title <- index Titles.titles i ;;
  emit (SetTitle i title) ;;;
  (if i >? 0
   then
     truth <- index est 0 ;;
     estimate <- index est i ;;
     v <- lift (call (Snr truth estimate) (snr truth estimate)) ;;
     emit (SetXLabel i (round2 v))
   else nret tt) ;;;
  emit (HideXTicks i) ;;;
  emit (HideYTicks i).

(** Lines 223-237. *)
Definition comparison_cell : N unit :=
  emit Subplots ;;;
  truth <- nread (fun s => kappa_true (vars s)) ;;
  k <- nread (fun s => ks (vars s)) ;;
  best <- nlookup (fun s => optimal_ks (vars s)) ;;
  solution <- nlookup sol ;;
  nfor (range 4)
       (panel [np_real truth; np_real k; np_real_id best; real_part solution]) ;;;
  emit PltShow.

(** The actions of one panel that goes through: [label] is the rounded
    SNR of a panel that has one. *)
Definition panel_actions (reference img : ndarray R) (vmin : R) (i : Z)
           (title : String.string) (label : option Score) : list action :=
  [NpMin reference; AxImshow i img vmin; SetTitle i title]
  ++ match label with Some v => [SetXLabel i v] | None => [] end
  ++ [HideXTicks i; HideYTicks i].

End Notebook.

Arguments RealArray {R} a.
Arguments ComplexArray {R} a.
Arguments real_part {R} x.
Arguments KsEstimate {R Score Data} d.
Arguments Imshow {R Score Data} img.
Arguments AxisOff {R Score Data}.
Arguments PltShow {R Score Data}.
Arguments Analyse {R Score Data} truth x.
Arguments Print {R Score Data} iteration snr_value p_corr.
Arguments Subplots {R Score Data}.
Arguments NpMin {R Score Data} a.
Arguments AxImshow {R Score Data} i img vmin.
Arguments SetTitle {R Score Data} i title.
Arguments SetXLabel {R Score Data} i rounded.
Arguments HideXTicks {R Score Data} i.
Arguments HideYTicks {R Score Data} i.
Arguments Session {R Score Data}.
Arguments vars {R Score Data} s.
Arguments data {R Score Data} s.
Arguments sol {R Score Data} s.
Arguments trace {R Score Data} s.
Arguments set_vars {R Score Data} w s.
Arguments record {R Score Data} a s.
Arguments set_ks {R Score} k w.
Arguments nret {R Score Data A} a s.
Arguments nbind {R Score Data A B} m k s.
Arguments lift {R Score Data A} m s.
Arguments nread {R Score Data A} var s.
Arguments nlookup {R Score Data A} var s.
Arguments emit {R Score Data} a s.
Arguments ncall {R Score Data A} a r s.
Arguments index {R Score Data A} l i s.
Arguments nfor {R Score Data} l body.
Arguments make_plot {R Score Data} analyse x iteration show_stats.
Arguments ks_cell_steps {R Score Data} zero gt gaussian_filter snr ks_estimate analyse max_scale_steps.
Arguments ks_cell {R Score Data} zero gt gaussian_filter snr ks_estimate analyse.
Arguments panel {R Score Data} snr np_min round2 est i.
Arguments comparison_cell {R Score Data} snr np_min round2.
Arguments panel_actions {R Score Data} reference img vmin i title label.

(** ** Integer stand-ins for the other library calls *)

Module DemoNotebook.

(** Stand-in for the Kaiser-Squires estimate: the data itself, made
    complex. *)
Definition estimate (d : ndarray Z) : result (ndarray (Z * Z)) :=
  Ok (Demo.complex 0 d).

(** Stand-in for [stats.analyse]: the stand-in score of the real parts,
    and 0 for the correlation. *)
Definition analyse (truth : ndarray (Z * Z)) (x : @pyarray Z) : result (Z * Z) :=
  match Demo.score (np_real truth) (real_part x) with
  | Ok v => Ok (v, 0)
  | Raise e => Raise e
  end.

(** [np.min]: the least entry; an empty array is refused. *)
Definition np_min (a : ndarray Z) : result Z :=
  match concat a with
  | [] => Raise LibraryError
  | v :: l => Ok (fold_right Z.min v l)
  end.

Definition round2 (v : Z) : Z := v.

(** Truth 3 and data 15, with an older estimate still bound to [ks] and a
    complex solution. *)
Definition s_tie : @session Z Z (ndarray Z) :=
  Session (Demo.fresh (Demo.complex 0 [[99]]) (Demo.complex 0 [[3]]))
          [[15]] (Some (ComplexArray [[(4, 1)]])) [].

(** The session after the gridsearch of five steps on [Demo.w_tie]. *)
Definition s_done : @session Z Z (ndarray Z) :=
  Session (snd (Demo.run 5 Demo.w_tie)) [[15]]
          (Some (ComplexArray [[(4, 1)]])) [].

(** 4x4 data against an 8x8 truth, in a notebook where the gridsearch
    cell has not run yet. *)
Definition s_mismatch : @session Z Z (ndarray Z) :=
  Session (Demo.fresh [] (Demo.complex 0 (Demo.zeros 8 8)))
          (Demo.zeros 4 4) (Some (ComplexArray [[(4, 1)]])) [].

(** A blur that refuses every scale above [limit]. *)
Definition blur_upto (limit : Z) (x : ndarray Z) (sigma : Z)
  : result (ndarray Z) :=
  if limit <? sigma then Raise LibraryError else Demo.blur x sigma.

(** A scorer that divides by the residual power, and so fails on an
    estimate equal to the truth. *)
Definition score_ratio (truth estimate : ndarray Z) : result Z :=
  if Demo.sum_sq (map (fun p => fst p - snd p)
                      (combine (concat truth) (concat estimate))) =? 0
  then Raise LibraryError
  else Demo.score truth estimate.

End DemoNotebook.

(** ** [range] *)

Lemma range_nonpos (n : Z) : n <= 0 -> range n = [].
Proof.
  intros Hn. unfold range.
  replace (Z.to_nat n) with 0%nat by lia. reflexivity.
Qed.

Lemma range_In (n i : Z) : In i (range n) <-> 0 <= i < n.
Proof.
  unfold range. rewrite in_map_iff. split.
  - intros [k [Hk Hin]]. apply in_seq in Hin. lia.
  - intros Hi. exists (Z.to_nat i). split; [lia|]. apply in_seq. lia.
Qed.

(** The passes before step [k], pass [k], and the passes after it. *)
Lemma range_split (n k : Z) :
  0 <= k < n ->
  exists later, range n = range k ++ k :: later
                /\ forall j, In j later -> k < j < n.
Proof.
  intros Hk. unfold range.
  replace (Z.to_nat n) with (Z.to_nat k + S (Z.to_nat (n - k - 1)))%nat by lia.
  rewrite seq_app, map_app. simpl.
  exists (map Z.of_nat (seq (S (Z.to_nat k)) (Z.to_nat (n - k - 1)))).
  split.
  - f_equal. f_equal. lia.
  - intros j Hj. apply in_map_iff in Hj. destruct Hj as [m [Hm Hin]].
    apply in_seq in Hin. lia.
Qed.

Lemma range_prefix (n k : Z) :
  0 <= k <= n -> exists later, range n = range k ++ later.
Proof.
  intros Hk. destruct (Z.eq_dec k n) as [->|Hne].
  - exists []. now rewrite app_nil_r.
  - destruct (range_split n k) as [later [Heq _]]; [lia|].
    exists (k :: later). exact Heq.
Qed.

Lemma range_first (n : Z) : 1 <= n -> exists later, range n = 0 :: later.
Proof.
  intros Hn. destruct (range_split n 0) as [later [Heq _]]; [lia|].
  exists later. rewrite Heq. reflexivity.
Qed.

Lemma steps_range (n : Z) : steps n = map (fun i => i + 1) (range n).
Proof.
  unfold steps, range. rewrite <- seq_shift, !map_map.
  apply map_ext. intros k. lia.
Qed.

(** ** The running best as a fold *)

Section RunningBest.

Context {Score : Type}.
Variable gt : Score -> Score -> bool.
Variable V : Z -> Score.

Lemma running_best_app (l1 l2 : list Z) (acc : Score * Z) :
  running_best gt V (l1 ++ l2) acc
  = running_best gt V l2 (running_best gt V l1 acc).
Proof. apply fold_left_app. Qed.

Lemma running_best_cons (i : Z) (l : list Z) (acc : Score * Z) :
  running_best gt V (i :: l) acc
  = running_best gt V l (keep_best gt V acc i).
Proof. reflexivity. Qed.

(** No pass beats the running score: nothing changes. *)
Lemma running_best_keep (l : list Z) (acc : Score * Z) :
  (forall i, In i l -> gt (V (i + 1)) (fst acc) = false) ->
  running_best gt V l acc = acc.
Proof.
  induction l as [|i l IH]; intros Hl; [reflexivity|].
  rewrite running_best_cons. unfold keep_best. rewrite (Hl i) by now left.
  apply IH. intros j Hj. apply Hl. now right.
Qed.

(** The running pair is the starting one or the pair of some pass. *)
Lemma running_best_origin (l : list Z) (acc : Score * Z) :
  running_best gt V l acc = acc
  \/ exists i, In i l /\ running_best gt V l acc = (V (i + 1), i + 1).
Proof.
  revert acc. induction l as [|i l IH]; intros acc; [now left|].
  rewrite running_best_cons.
  destruct (IH (keep_best gt V acc i)) as [Heq | [j [Hj Heq]]].
  - rewrite Heq. unfold keep_best.
    destruct (gt (V (i + 1)) (fst acc)); [right | now left].
    exists i. split; [now left | reflexivity].
  - right. exists j. split; [now right | exact Heq].
Qed.

Lemma running_best_bounds (n : Z) (l : list Z) (acc : Score * Z) :
  (forall i, In i l -> 0 <= i < n) ->
  0 <= snd acc <= n ->
  0 <= snd (running_best gt V l acc) <= n.
Proof.
  intros Hl Hacc.
  destruct (running_best_origin l acc) as [-> | [i [Hi ->]]]; [exact Hacc|].
  simpl. specialize (Hl i Hi). lia.
Qed.

(** The first pass that beats everything before it, and that nothing
    after it beats, is the one kept. *)
Lemma running_best_first (l1 l2 : list Z) (i : Z) (acc : Score * Z) :
  gt (V (i + 1)) (fst acc) = true ->
  (forall j, In j l1 -> gt (V (i + 1)) (V (j + 1)) = true) ->
  (forall j, In j l2 -> gt (V (j + 1)) (V (i + 1)) = false) ->
  running_best gt V (l1 ++ i :: l2) acc = (V (i + 1), i + 1).
Proof.
  intros Hacc Hbefore Hafter.
  rewrite running_best_app, running_best_cons.
  assert (Hbeat : gt (V (i + 1)) (fst (running_best gt V l1 acc)) = true).
  { destruct (running_best_origin l1 acc) as [-> | [j [Hj ->]]].
    - exact Hacc.
    - simpl. now apply Hbefore. }
  unfold keep_best. rewrite Hbeat.
  now apply running_best_keep.
Qed.

Section Order.

Hypothesis gt_irrefl : forall a, gt a a = false.
Hypothesis gt_trans :
  forall a b c, gt a b = true -> gt b c = true -> gt a c = true.

Lemma keep_best_grows (x : Score) (acc : Score * Z) (i : Z) :
  gt x (fst acc) = false -> gt x (fst (keep_best gt V acc i)) = false.
Proof.
  intros Hx. unfold keep_best.
  destruct (gt (V (i + 1)) (fst acc)) eqn:Hup; [simpl | exact Hx].
  destruct (gt x (V (i + 1))) eqn:Hxv; [|reflexivity].
  rewrite (gt_trans _ _ _ Hxv Hup) in Hx. discriminate.
Qed.

Lemma running_best_grows (x : Score) (l : list Z) (acc : Score * Z) :
  gt x (fst acc) = false -> gt x (fst (running_best gt V l acc)) = false.
Proof.
  revert acc. induction l as [|i l IH]; intros acc Hx; [exact Hx|].
  rewrite running_best_cons. apply IH. now apply keep_best_grows.
Qed.

(** No pass scores strictly more than the running score. *)
Lemma running_best_upper (l : list Z) (acc : Score * Z) (i : Z) :
  In i l -> gt (V (i + 1)) (fst (running_best gt V l acc)) = false.
Proof.
  revert acc. induction l as [|j l IH]; intros acc Hi; [destruct Hi|].
  rewrite running_best_cons. destruct Hi as [-> | Hi]; [|now apply IH].
  apply running_best_grows. unfold keep_best.
  destruct (gt (V (i + 1)) (fst acc)) eqn:Hup; [apply gt_irrefl | exact Hup].
Qed.

End Order.

End RunningBest.

(** ** Running the cell *)

Section Runs.

Context {R Score : Type}.
Variable zero : Score.
Variable gt : Score -> Score -> bool.
Variable gaussian_filter : ndarray R -> Z -> result (ndarray R).
Variable snr : ndarray R -> ndarray R -> result Score.

Local Notation "'world'" := (@world R Score).
Local Notation "'body'" := (loop_body gt gaussian_filter snr).

Lemma for_nil (f : Z -> M R Score unit) (w : world) : for_ [] f w = (Ok tt, w).
Proof. reflexivity. Qed.

Lemma for_cons (i : Z) (l : list Z) (f : Z -> M R Score unit) (w : world) :
  for_ (i :: l) f w = bind (f i) (fun _ => for_ l f) w.
Proof. reflexivity. Qed.

Lemma for_app (l1 l2 : list Z) (f : Z -> M R Score unit) (w : world) :
  for_ (l1 ++ l2) f w = bind (for_ l1 f) (fun _ => for_ l2 f) w.
Proof.
  revert w. induction l1 as [|i l1 IH]; intros w; [reflexivity|].
  rewrite <- app_comm_cons, for_cons. unfold bind at 1 2. rewrite for_cons.
  unfold bind at 1.
  destruct (f i w) as [[[]|e] w1]; [|reflexivity]. apply IH.
Qed.

(** *** One pass *)

(** A pass whose two library calls return. *)
Lemma loop_body_ok (i : Z) (w : world) (f : ndarray R) (v : Score) :
  gaussian_filter (np_real (ks w)) (i + 1) = Ok f ->
  snr (np_real (kappa_true w)) f = Ok v ->
  exists w',
    body i w = (Ok tt, w')
    /\ ks w' = ks w /\ kappa_true w' = kappa_true w
    /\ optimal_ks w' = optimal_ks w
    /\ calls w' = calls w ++ [GaussianFilter (np_real (ks w)) (i + 1);
                              Snr (np_real (kappa_true w)) f]
    /\ (snr_max w', smooth_max w')
       = (if gt v (snr_max w) then (v, i + 1) else (snr_max w, smooth_max w)).
Proof.
  intros Hf Hv.
  unfold loop_body, bind, read, lookup, call, assign, float, np_real_id.
  cbn [ks kappa_true smoothed_ks log set_smoothed_ks]. rewrite Hf.
  cbn [ks kappa_true smoothed_ks log set_smoothed_ks]. rewrite Hv.
  cbn [snr_max snr_iter log set_smoothed_ks set_snr_iter].
  destruct (gt v (snr_max w)); eexists; (split; [reflexivity|]);
    cbn; rewrite <- app_assoc; repeat split.
Qed.

(** A pass whose scorer call raises: the pass stops there. *)
Lemma loop_body_snr_raises (i : Z) (w : world) (f : ndarray R) (e : exn) :
  gaussian_filter (np_real (ks w)) (i + 1) = Ok f ->
  snr (np_real (kappa_true w)) f = Raise e ->
  exists w',
    body i w = (Raise e, w')
    /\ optimal_ks w' = optimal_ks w
    /\ snr_max w' = snr_max w /\ smooth_max w' = smooth_max w
    /\ calls w' = calls w ++ [GaussianFilter (np_real (ks w)) (i + 1);
                              Snr (np_real (kappa_true w)) f].
Proof.
  intros Hf Hv.
  unfold loop_body, bind, read, lookup, call, assign, float, np_real_id.
  cbn [ks kappa_true smoothed_ks log set_smoothed_ks]. rewrite Hf.
  cbn [ks kappa_true smoothed_ks log set_smoothed_ks]. rewrite Hv.
  eexists; (split; [reflexivity|]); cbn; rewrite <- app_assoc; repeat split.
Qed.

(** Whatever happens in a pass, it first logs the blur at scale i + 1,
    and it writes neither input nor [optimal_ks]. *)
Lemma loop_body_any (i : Z) (w : world) :
  let w' := snd (body i w) in
  ks w' = ks w /\ kappa_true w' = kappa_true w
  /\ optimal_ks w' = optimal_ks w
  /\ exists later,
       calls w' = calls w ++ GaussianFilter (np_real (ks w)) (i + 1) :: later.
Proof.
  unfold loop_body, bind, read, lookup, call, assign, float, np_real_id.
  cbn [ks kappa_true smoothed_ks log set_smoothed_ks].
  destruct (gaussian_filter (np_real (ks w)) (i + 1)) as [f|e].
  - cbn [ks kappa_true smoothed_ks log set_smoothed_ks].
    destruct (snr (np_real (kappa_true w)) f) as [v|e].
    + cbn [snr_max snr_iter log set_smoothed_ks set_snr_iter].
      destruct (gt v (snr_max w)); cbn; repeat split;
        eexists; rewrite <- app_assoc; reflexivity.
    + cbn; repeat split; eexists; rewrite <- app_assoc; reflexivity.
  - cbn; repeat split. exists []. reflexivity.
Qed.

(** A pass whose blur call raises: nothing else happens. *)
Lemma loop_body_blur_raises (i : Z) (w : world) (e : exn) :
  gaussian_filter (np_real (ks w)) (i + 1) = Raise e ->
  body i w = (Raise e, log (GaussianFilter (np_real (ks w)) (i + 1)) w).
Proof.
  intros Hf.
  unfold loop_body, bind, read, lookup, call, assign, float, np_real_id.
  cbn [ks kappa_true smoothed_ks log set_smoothed_ks]. rewrite Hf. reflexivity.
Qed.

(** Two passes from namespaces that agree end alike. *)
Lemma loop_body_agree (i : Z) (w1 w2 : world) :
  agree w1 w2 ->
  fst (body i w1) = fst (body i w2)
  /\ agree (snd (body i w1)) (snd (body i w2))
  /\ exists evs, calls (snd (body i w1)) = calls w1 ++ evs
                 /\ calls (snd (body i w2)) = calls w2 ++ evs.
Proof.
  intros (Hks & Hkt & Hmax & Hscale). unfold agree.
  unfold loop_body, bind, read, lookup, call, assign, float, np_real_id.
  cbn [ks kappa_true smoothed_ks log set_smoothed_ks]. rewrite <- Hks.
  destruct (gaussian_filter (np_real (ks w1)) (i + 1)) as [f|e].
  - cbn [ks kappa_true smoothed_ks log set_smoothed_ks]. rewrite <- Hkt.
    destruct (snr (np_real (kappa_true w1)) f) as [v|e].
    + cbn [snr_max snr_iter log set_smoothed_ks set_snr_iter]. rewrite <- Hmax.
      destruct (gt v (snr_max w1)); cbn; repeat split; try assumption;
        eexists; rewrite <- !app_assoc; split; reflexivity.
    + cbn; repeat split; try assumption;
        eexists; rewrite <- !app_assoc; split; reflexivity.
  - cbn; repeat split; try assumption. eexists; split; reflexivity.
Qed.

(** *** The loop *)

Lemma for_any (l : list Z) (w : world) :
  let w' := snd (for_ l body w) in
  ks w' = ks w /\ kappa_true w' = kappa_true w
  /\ optimal_ks w' = optimal_ks w.
Proof.
  revert w. induction l as [|i l IH]; intros w; [now cbn|].
  rewrite for_cons. unfold bind.
  destruct (loop_body_any i w) as (Hks & Hkt & Hopt & _).
  destruct (body i w) as [[[]|e] w1]; cbn [snd] in *; [|tauto].
  destruct (IH w1) as (Hks' & Hkt' & Hopt'). cbn zeta in *.
  rewrite Hks', Hkt', Hopt'. tauto.
Qed.

Lemma for_agree (l : list Z) (w1 w2 : world) :
  agree w1 w2 ->
  fst (for_ l body w1) = fst (for_ l body w2)
  /\ agree (snd (for_ l body w1)) (snd (for_ l body w2))
  /\ exists evs, calls (snd (for_ l body w1)) = calls w1 ++ evs
                 /\ calls (snd (for_ l body w2)) = calls w2 ++ evs.
Proof.
  revert w1 w2. induction l as [|i l IH]; intros w1 w2 Hw.
  - cbn. split; [reflexivity|]. split; [exact Hw|].
    exists []. now rewrite !app_nil_r.
  - rewrite !for_cons. unfold bind.
    destruct (loop_body_agree i w1 w2 Hw) as (Hr & Hag & evs & He1 & He2).
    destruct (body i w1) as [r1 u1], (body i w2) as [r2 u2].
    cbn [fst snd] in *. subst r2. destruct r1 as [[]|e].
    + destruct (IH u1 u2 Hag) as (Hr' & Hag' & evs' & He1' & He2').
      split; [exact Hr'|]. split; [exact Hag'|]. exists (evs ++ evs').
      rewrite He1', He2', He1, He2, <- !app_assoc. split; reflexivity.
    + cbn. split; [reflexivity|]. split; [exact Hag|].
      exists evs. split; assumption.
Qed.

(** The loop when every library call of it returns. *)
Lemma for_valid (raw truth : ndarray R) (B : Z -> ndarray R) (V : Z -> Score)
      (l : list Z) (w : world) :
  np_real (ks w) = raw ->
  np_real (kappa_true w) = truth ->
  (forall i, In i l -> gaussian_filter raw (i + 1) = Ok (B (i + 1))
                       /\ snr truth (B (i + 1)) = Ok (V (i + 1))) ->
  exists w',
    for_ l body w = (Ok tt, w')
    /\ ks w' = ks w /\ kappa_true w' = kappa_true w
    /\ optimal_ks w' = optimal_ks w
    /\ calls w' = calls w ++ scan_calls raw truth B l
    /\ (snr_max w', smooth_max w')
       = running_best gt V l (snr_max w, smooth_max w).
Proof.
  revert w. induction l as [|i l IH]; intros w Hraw Htruth Hl.
  - exists w. cbn. rewrite app_nil_r. repeat split.
  - destruct (Hl i (or_introl eq_refl)) as [Hf Hv].
    rewrite <- Hraw in Hf. rewrite <- Htruth in Hv.
    destruct (loop_body_ok i w _ _ Hf Hv)
      as (w1 & Hrun & Hks & Hkt & Hopt & Hcalls & Hbest).
    destruct (IH w1) as (w2 & Hrun2 & Hks2 & Hkt2 & Hopt2 & Hcalls2 & Hbest2).
    + now rewrite Hks.
    + now rewrite Hkt.
    + intros j Hj. apply Hl. now right.
    + exists w2. rewrite for_cons. unfold bind. rewrite Hrun.
      split; [exact Hrun2|].
      rewrite Hks2, Hkt2, Hopt2, Hcalls2, Hbest2, Hcalls, Hbest.
      rewrite Hraw, Htruth, running_best_cons, <- app_assoc.
      repeat split; try assumption.
Qed.

(** *** The scan and the blur after it *)

Lemma scan_eq (n : Z) (w : world) :
  scan zero gt gaussian_filter snr n w
  = for_ (range n) body (set_smooth_max 0 (set_snr_max zero w)).
Proof. reflexivity. Qed.

Lemma gridsearch_eq (n : Z) (w : world) :
  gridsearch zero gt gaussian_filter snr n w
  = bind (scan zero gt gaussian_filter snr n)
         (fun _ => recompute gaussian_filter) w.
Proof. reflexivity. Qed.

Lemma recompute_ok (w : world) (f : ndarray R) :
  gaussian_filter (np_real (ks w)) (smooth_max w) = Ok f ->
  recompute gaussian_filter w
  = (Ok tt, set_optimal_ks f
              (log (GaussianFilter (np_real (ks w)) (smooth_max w)) w)).
Proof.
  intros Hf. unfold recompute, bind, read, call, assign.
  cbn [ks smooth_max]. rewrite Hf. reflexivity.
Qed.

Lemma recompute_raises (w : world) (e : exn) :
  gaussian_filter (np_real (ks w)) (smooth_max w) = Raise e ->
  recompute gaussian_filter w
  = (Raise e, log (GaussianFilter (np_real (ks w)) (smooth_max w)) w).
Proof.
  intros Hf. unfold recompute, bind, read, call, assign.
  cbn [ks smooth_max]. rewrite Hf. reflexivity.
Qed.

Lemma recompute_any (w : world) :
  let w' := snd (recompute gaussian_filter w) in
  ks w' = ks w /\ kappa_true w' = kappa_true w
  /\ snr_max w' = snr_max w /\ smooth_max w' = smooth_max w.
Proof.
  destruct (gaussian_filter (np_real (ks w)) (smooth_max w)) as [f|e] eqn:Hf.
  - rewrite (recompute_ok _ _ Hf). now cbn.
  - rewrite (recompute_raises _ _ Hf). now cbn.
Qed.

Lemma valid_run_passes (raw truth : ndarray R) (B : Z -> ndarray R)
      (V : Z -> Score) (n k : Z) :
  k <= n ->
  valid_run gaussian_filter snr raw truth B V n ->
  forall i, In i (range k) ->
            gaussian_filter raw (i + 1) = Ok (B (i + 1))
            /\ snr truth (B (i + 1)) = Ok (V (i + 1)).
Proof.
  intros Hk [Hblur Hsnr] i Hi. apply range_In in Hi.
  split; [apply Hblur | apply Hsnr]; lia.
Qed.

(** The scan of [k] steps of a run whose library calls return. *)
Lemma scan_valid (B : Z -> ndarray R) (V : Z -> Score) (n k : Z) (w : world) :
  k <= n ->
  valid_run gaussian_filter snr (np_real (ks w)) (np_real (kappa_true w)) B V n ->
  exists w',
    scan zero gt gaussian_filter snr k w = (Ok tt, w')
    /\ ks w' = ks w /\ kappa_true w' = kappa_true w
    /\ optimal_ks w' = optimal_ks w
    /\ calls w' = calls w ++ scan_calls (np_real (ks w))
                                       (np_real (kappa_true w)) B (range k)
    /\ (snr_max w', smooth_max w') = running_best gt V (range k) (zero, 0).
Proof.
  intros Hk Hvalid. rewrite scan_eq.
  apply (for_valid (np_real (ks w)) (np_real (kappa_true w)) B V (range k)
                   (set_smooth_max 0 (set_snr_max zero w)));
    [reflexivity | reflexivity |].
  now apply (valid_run_passes _ _ B V n k).
Qed.

(** The whole gridsearch of a run whose library calls return. *)
Lemma gridsearch_valid (B : Z -> ndarray R) (V : Z -> Score) (n : Z) (w : world) :
  0 <= n ->
  valid_run gaussian_filter snr (np_real (ks w)) (np_real (kappa_true w)) B V n ->
  exists w',
    gridsearch zero gt gaussian_filter snr n w = (Ok tt, w')
    /\ ks w' = ks w /\ kappa_true w' = kappa_true w
    /\ (snr_max w', smooth_max w') = running_best gt V (range n) (zero, 0)
    /\ 0 <= smooth_max w' <= n
    /\ optimal_ks w' = Some (B (smooth_max w'))
    /\ calls w' = calls w
                  ++ scan_calls (np_real (ks w)) (np_real (kappa_true w)) B (range n)
                  ++ [GaussianFilter (np_real (ks w)) (smooth_max w')].
Proof.
  intros Hn Hvalid.
  destruct (scan_valid B V n n w (Z.le_refl n) Hvalid)
    as (w1 & Hrun & Hks & Hkt & Hopt & Hcalls & Hbest).
  assert (Hbound : 0 <= smooth_max w1 <= n).
  { change (smooth_max w1) with (snd (snr_max w1, smooth_max w1)).
    rewrite Hbest. apply running_best_bounds; [|simpl; lia].
    intros i Hi. now apply range_In. }
  assert (Hf : gaussian_filter (np_real (ks w1)) (smooth_max w1)
               = Ok (B (smooth_max w1))).
  { rewrite Hks. now apply (proj1 Hvalid). }
  rewrite gridsearch_eq. unfold bind. rewrite Hrun, (recompute_ok _ _ Hf).
  eexists. split; [reflexivity|]. cbn.
  rewrite Hcalls, Hks, <- app_assoc. repeat split; try assumption; apply Hbound.
Qed.

(** The gridsearch writes neither input, however it ends. *)
Lemma gridsearch_any (n : Z) (w : world) :
  let w' := snd (gridsearch zero gt gaussian_filter snr n w) in
  ks w' = ks w /\ kappa_true w' = kappa_true w.
Proof.
  rewrite gridsearch_eq. unfold bind. rewrite scan_eq.
  destruct (for_any (range n) (set_smooth_max 0 (set_snr_max zero w)))
    as (Hks & Hkt & _).
  destruct (for_ (range n) body (set_smooth_max 0 (set_snr_max zero w)))
    as [[[]|e] w1]; cbn [snd] in *; [|now split].
  destruct (recompute_any w1) as (Hks' & Hkt' & _). cbn zeta in *.
  rewrite Hks', Hkt'. now split.
Qed.

(** Two runs that read the same real parts end alike. *)
Lemma gridsearch_agree (n : Z) (w1 w2 : world) :
  np_real (ks w1) = np_real (ks w2) ->
  np_real (kappa_true w1) = np_real (kappa_true w2) ->
  fst (gridsearch zero gt gaussian_filter snr n w1)
  = fst (gridsearch zero gt gaussian_filter snr n w2)
  /\ (fst (gridsearch zero gt gaussian_filter snr n w1) = Ok tt ->
      outputs (snd (gridsearch zero gt gaussian_filter snr n w1))
      = outputs (snd (gridsearch zero gt gaussian_filter snr n w2)))
  /\ exists evs,
       calls (snd (gridsearch zero gt gaussian_filter snr n w1)) = calls w1 ++ evs
       /\ calls (snd (gridsearch zero gt gaussian_filter snr n w2)) = calls w2 ++ evs.
Proof.
  intros Hks Hkt. rewrite !gridsearch_eq. unfold bind. rewrite !scan_eq.
  assert (Hw : agree (set_smooth_max 0 (set_snr_max zero w1))
                     (set_smooth_max 0 (set_snr_max zero w2))).
  { unfold agree. cbn. tauto. }
  destruct (for_agree (range n) _ _ Hw) as (Hr & Hag & evs & He1 & He2).
  cbn [calls set_smooth_max set_snr_max] in He1, He2.
  destruct (for_ (range n) body (set_smooth_max 0 (set_snr_max zero w1)))
    as [r1 u1].
  destruct (for_ (range n) body (set_smooth_max 0 (set_snr_max zero w2)))
    as [r2 u2].
  cbn [fst snd] in *. subst r2. destruct r1 as [[]|e].
  - destruct Hag as (Hks' & Hkt' & Hmax & Hscale).
    destruct (gaussian_filter (np_real (ks u1)) (smooth_max u1)) as [f|e] eqn:Hf.
    + rewrite (recompute_ok u1 f Hf).
      rewrite Hks', Hscale in Hf. rewrite (recompute_ok u2 f Hf).
      unfold outputs. cbn. rewrite Hmax, Hscale, He1, He2, Hks'.
      split; [reflexivity|]. split; [reflexivity|].
      eexists. rewrite <- !app_assoc. split; reflexivity.
    + rewrite (recompute_raises u1 e Hf).
      rewrite Hks', Hscale in Hf. rewrite (recompute_raises u2 e Hf).
      cbn. rewrite He1, He2, Hks', Hscale.
      split; [reflexivity|]. split; [discriminate|].
      eexists. rewrite <- !app_assoc. split; reflexivity.
  - cbn. split; [reflexivity|]. split; [discriminate|].
    exists evs. split; assumption.
Qed.

(** The loop against the fold that carries the best field along. *)
Lemma for_tracked (l : list Z) (w : world) (f : ndarray R) :
  match tracked_scan gt gaussian_filter snr
                     (np_real (ks w)) (np_real (kappa_true w))
                     (map (fun i => i + 1) l) (smooth_max w, f, snr_max w) with
  | Ok (s', f', m') =>
      exists w',
        for_ l body w = (Ok tt, w')
        /\ ks w' = ks w /\ kappa_true w' = kappa_true w
        /\ smooth_max w' = s' /\ snr_max w' = m'
        /\ (gaussian_filter (np_real (ks w)) (smooth_max w) = Ok f ->
            gaussian_filter (np_real (ks w)) s' = Ok f')
  | Raise e => fst (for_ l body w) = Raise e
  end.
Proof.
  revert w f. induction l as [|i l IH]; intros w f.
  - cbn. exists w. repeat split; tauto.
  - cbn [map tracked_scan]. rewrite for_cons. unfold bind.
    destruct (gaussian_filter (np_real (ks w)) (i + 1)) as [g|e] eqn:Hg.
    + destruct (snr (np_real (kappa_true w)) g) as [v|e] eqn:Hv.
      * destruct (loop_body_ok i w g v Hg Hv)
          as (w1 & Hrun & Hks & Hkt & Hopt & Hcalls & Hbest).
        rewrite Hrun. cbn [snd].
        specialize (IH w1 (if gt v (snr_max w) then g else f)).
        rewrite Hks, Hkt in IH.
        assert (Hacc : (smooth_max w1, (if gt v (snr_max w) then g else f),
                        snr_max w1)
                       = (if gt v (snr_max w) then (i + 1, g, v)
                          else (smooth_max w, f, snr_max w))).
        { destruct (gt v (snr_max w)); congruence. }
        rewrite Hacc in IH.
        destruct (tracked_scan gt gaussian_filter snr (np_real (ks w))
                    (np_real (kappa_true w)) (map (fun i0 => i0 + 1) l)
                    (if gt v (snr_max w) then (i + 1, g, v)
                     else (smooth_max w, f, snr_max w)))
          as [[[s' f'] m']|e]; [|exact IH].
        destruct IH as (w2 & Hrun2 & Hks2 & Hkt2 & Hs & Hm & Hblur).
        exists w2. split; [exact Hrun2|].
        repeat split; try congruence.
        intros Hf0. apply Hblur.
        assert (Hsm : smooth_max w1 = if gt v (snr_max w)
                                      then i + 1 else smooth_max w).
        { destruct (gt v (snr_max w)); congruence. }
        rewrite Hsm. destruct (gt v (snr_max w)); assumption.
      * destruct (loop_body_snr_raises i w g e Hg Hv) as (w1 & Hrun & _).
        now rewrite Hrun.
    + now rewrite (loop_body_blur_raises i w e Hg).
Qed.

Lemma for_calls (l : list Z) (w : world) :
  exists evs, calls (snd (for_ l body w)) = calls w ++ evs.
Proof.
  assert (Hw : agree w w) by (unfold agree; tauto).
  destruct (for_agree l w w Hw) as (_ & _ & evs & He & _).
  now exists evs.
Qed.

Lemma scan_calls_steps (raw truth : ndarray R) (B : Z -> ndarray R) (n : Z) :
  scan_calls raw truth B (range n)
  = flat_map (fun s => [GaussianFilter raw s; Snr truth (B s)]) (steps n).
Proof.
  rewrite steps_range. unfold scan_calls.
  induction (range n) as [|i l IH]; [reflexivity|].
  cbn [flat_map map]. rewrite IH. reflexivity.
Qed.

(** ** The claims *)

(** C1: on a run of max_scale_steps >= 1 whose library calls return, the
    gridsearch calls the blur and then the scorer once for each scale
    1, 2, ..., max_scale_steps, in that order, the scorer on the ground
    truth and the candidate just blurred (and then blurs once more at
    the scale it kept).  No candidate scores strictly more than the
    score it reports, and when some candidate scores more than the
    initial 0 the reported score is the score of the reported scale, a
    candidate: the maximum of the candidate scores. *)
Theorem gridsearch_scores_every_candidate
        (B : Z -> ndarray R) (V : Z -> Score) (n : Z) (w : world) :
  1 <= n ->
  valid_run gaussian_filter snr (np_real (ks w)) (np_real (kappa_true w)) B V n ->
  (forall a, gt a a = false) ->
  (forall a b c, gt a b = true -> gt b c = true -> gt a c = true) ->
  exists w',
    gridsearch zero gt gaussian_filter snr n w = (Ok tt, w')
    /\ calls w'
       = calls w
         ++ flat_map (fun s => [GaussianFilter (np_real (ks w)) s;
                                Snr (np_real (kappa_true w)) (B s)]) (steps n)
         ++ [GaussianFilter (np_real (ks w)) (smooth_max w')]
    /\ (forall s, 1 <= s <= n -> gt (V s) (snr_max w') = false)
    /\ ((exists s, 1 <= s <= n /\ gt (V s) zero = true) ->
        exists s, 1 <= s <= n /\ snr_max w' = V s /\ smooth_max w' = s).
Proof.
  intros Hn Hvalid Hirrefl Htrans.
  destruct (gridsearch_valid B V n w) as
    (w' & Hrun & _ & _ & Hbest & Hbound & _ & Hcalls); [lia | exact Hvalid |].
  assert (Hupper : forall s, 1 <= s <= n -> gt (V s) (snr_max w') = false).
  { intros s Hs.
    change (snr_max w') with (fst (snr_max w', smooth_max w')). rewrite Hbest.
    replace s with (s - 1 + 1) by lia.
    apply running_best_upper; [exact Hirrefl | exact Htrans |].
    apply range_In. lia. }
  exists w'. split; [exact Hrun|]. split; [|split; [exact Hupper|]].
  - rewrite Hcalls, scan_calls_steps. reflexivity.
  - intros (s & Hs & Hgt).
    destruct (running_best_origin gt V (range n) (zero, 0))
      as [Heq | (i & Hi & Heq)]; rewrite Heq in Hbest.
    + injection Hbest as Hmax _.
      specialize (Hupper s Hs). rewrite Hmax in Hupper. congruence.
    + injection Hbest as Hmax Hscale. apply range_In in Hi.
      exists (i + 1). repeat split; try assumption; lia.
Qed.

(** C2, amended: when the largest candidate score is strictly greater
    than the initial 0, the gridsearch returns the smallest scale that
    attains it.  First: if no candidate scores strictly more than scale s1
    does, every scale below s1 scores strictly less than s1, and the score
    of s1 exceeds 0, then s1 is the returned scale (with its score and its
    smoothed field).  Second, for a comparison that is irreflexive and
    transitive: two scales s1 < s2 with equal scores that exceed all other
    scores and 0 give s1. *)
Theorem gridsearch_smallest_best_scale
        (B : Z -> ndarray R) (V : Z -> Score) (n : Z) (w : world) :
  valid_run gaussian_filter snr (np_real (ks w)) (np_real (kappa_true w)) B V n ->
  (forall s1,
      1 <= s1 <= n ->
      gt (V s1) zero = true ->
      (forall s, 1 <= s <= n -> gt (V s) (V s1) = false) ->
      (forall s, 1 <= s < s1 -> gt (V s1) (V s) = true) ->
      exists w',
        gridsearch zero gt gaussian_filter snr n w = (Ok tt, w')
        /\ outputs w' = (s1, Some (B s1), V s1))
  /\ ((forall a, gt a a = false) ->
      (forall a b c, gt a b = true -> gt b c = true -> gt a c = true) ->
      forall s1 s2,
        1 <= s1 -> s1 < s2 -> s2 <= n ->
        V s1 = V s2 ->
        gt (V s1) zero = true ->
        (forall s, 1 <= s <= n -> s <> s1 -> s <> s2 -> gt (V s1) (V s) = true) ->
        exists w',
          gridsearch zero gt gaussian_filter snr n w = (Ok tt, w')
          /\ outputs w' = (s1, Some (B s1), V s1)).
Proof.
  intros Hvalid.
  assert (Hgen : forall s1,
             1 <= s1 <= n ->
             gt (V s1) zero = true ->
             (forall s, 1 <= s <= n -> gt (V s) (V s1) = false) ->
             (forall s, 1 <= s < s1 -> gt (V s1) (V s) = true) ->
             exists w',
               gridsearch zero gt gaussian_filter snr n w = (Ok tt, w')
               /\ outputs w' = (s1, Some (B s1), V s1)).
  { intros s1 Hs1 Hpos Hmax Hfirst.
    destruct (gridsearch_valid B V n w) as
      (w' & Hrun & _ & _ & Hbest & _ & Hopt & _); [lia | exact Hvalid |].
    exists w'. split; [exact Hrun|].
    destruct (range_split n (s1 - 1)) as (later & Hsplit & Hlater); [lia|].
    rewrite Hsplit in Hbest.
    rewrite (running_best_first gt V (range (s1 - 1)) later (s1 - 1) (zero, 0))
      in Hbest.
    - replace (s1 - 1 + 1) with s1 in Hbest by lia.
      injection Hbest as Hscore Hscale.
      unfold outputs. rewrite Hopt, Hscale, Hscore. reflexivity.
    - replace (s1 - 1 + 1) with s1 by lia. exact Hpos.
    - intros j Hj. apply range_In in Hj.
      replace (s1 - 1 + 1) with s1 by lia. apply Hfirst. lia.
    - intros j Hj. apply Hlater in Hj.
      replace (s1 - 1 + 1) with s1 by lia. apply Hmax. lia. }
  split; [exact Hgen|].
  intros Hirrefl Htrans s1 s2 Hlo Hlt Hhi Htie Hpos Hothers.
  apply Hgen; [lia | exact Hpos | |].
  - intros s Hs.
    destruct (Z.eq_dec s s1) as [-> | Hne1]; [apply Hirrefl|].
    destruct (Z.eq_dec s s2) as [-> | Hne2]; [rewrite <- Htie; apply Hirrefl|].
    destruct (gt (V s) (V s1)) eqn:Hback; [|reflexivity].
    rewrite <- (Hirrefl (V s1)). symmetry.
    apply (Htrans _ (V s) _); [now apply Hothers | exact Hback].
  - intros s Hs. apply Hothers; lia.
Qed.

(** C4, amended: the gridsearch checks no shape.  With max_scale_steps
    >= 1 its first library call is the blur of the estimate at scale 1,
    whatever the two shapes are; when the scorer then raises on the
    ground truth and that blurred field, the gridsearch ends with the
    scorer's exception after exactly these two calls, and the output
    field is not written. *)
Theorem gridsearch_scorer_failure (n : Z) (w : world) :
  1 <= n ->
  (exists later,
      calls (snd (gridsearch zero gt gaussian_filter snr n w))
      = calls w ++ GaussianFilter (np_real (ks w)) 1 :: later)
  /\ forall f e,
      gaussian_filter (np_real (ks w)) 1 = Ok f ->
      snr (np_real (kappa_true w)) f = Raise e ->
      exists w',
        gridsearch zero gt gaussian_filter snr n w = (Raise e, w')
        /\ calls w' = calls w ++ [GaussianFilter (np_real (ks w)) 1;
                                  Snr (np_real (kappa_true w)) f]
        /\ optimal_ks w' = optimal_ks w.
Proof.
  intros Hn. destruct (range_first n Hn) as (rest & Hrange).
  rewrite gridsearch_eq. unfold bind. rewrite scan_eq, Hrange, for_cons.
  unfold bind. split.
  - destruct (loop_body_any 0 (set_smooth_max 0 (set_snr_max zero w)))
      as (Hks & _ & _ & evs & Hcalls).
    cbn [calls ks set_smooth_max set_snr_max] in Hks, Hcalls.
    change (0 + 1) with 1 in Hcalls.
    destruct (body 0 (set_smooth_max 0 (set_snr_max zero w))) as [[[]|e] w1];
      cbn [snd] in *; [|now exists evs].
    destruct (for_calls rest w1) as (evs1 & Hcalls1).
    destruct (for_any rest w1) as (Hks1 & _).
    destruct (for_ rest body w1) as [[[]|e] w2]; cbn [snd] in *.
    + destruct (gaussian_filter (np_real (ks w2)) (smooth_max w2))
        as [g|e] eqn:Hg.
      * rewrite (recompute_ok w2 g Hg). cbn.
        rewrite Hcalls1, Hcalls, <- !app_assoc. cbn. eexists. reflexivity.
      * rewrite (recompute_raises w2 e Hg). cbn.
        rewrite Hcalls1, Hcalls, <- !app_assoc. cbn. eexists. reflexivity.
    + rewrite Hcalls1, Hcalls, <- !app_assoc. cbn. eexists. reflexivity.
  - intros f e Hf He.
    destruct (loop_body_snr_raises 0 (set_smooth_max 0 (set_snr_max zero w)) f e)
      as (w1 & Hrun & Hopt & _ & _ & Hcalls); [exact Hf | exact He |].
    rewrite Hrun. exists w1. split; [reflexivity|].
    split; [exact Hcalls | exact Hopt].
Qed.

(** C5: the scan starts from running score 0 and running scale 0 (the
    namespace [w0] its passes start from), and on a run whose library
    calls return and in which no candidate scores strictly more than 0
    the gridsearch hands on the trivial best: scale 0, the estimate
    blurred at scale 0, score 0. *)
Theorem gridsearch_trivial_best
        (B : Z -> ndarray R) (V : Z -> Score) (n : Z) (w : world) :
  0 <= n ->
  valid_run gaussian_filter snr (np_real (ks w)) (np_real (kappa_true w)) B V n ->
  (forall s, 1 <= s <= n -> gt (V s) zero = false) ->
  exists w0 w',
    scan zero gt gaussian_filter snr 0 w = (Ok tt, w0)
    /\ snr_max w0 = zero /\ smooth_max w0 = 0
    /\ scan zero gt gaussian_filter snr n w = for_ (range n) body w0
    /\ gridsearch zero gt gaussian_filter snr n w = (Ok tt, w')
    /\ outputs w' = (0, Some (B 0), zero).
Proof.
  intros Hn Hvalid Hlow.
  destruct (gridsearch_valid B V n w Hn Hvalid) as
    (w' & Hrun & _ & _ & Hbest & _ & Hopt & _).
  exists (set_smooth_max 0 (set_snr_max zero w)), w'.
  repeat (split; [reflexivity|]). split; [exact Hrun|].
  rewrite running_best_keep in Hbest.
  - injection Hbest as Hscore Hscale.
    unfold outputs. rewrite Hopt, Hscale, Hscore. reflexivity.
  - intros i Hi. apply range_In in Hi. apply Hlow. lia.
Qed.

(** C6: on a run of max_scale_steps >= 1 whose library calls return, the
    scale the gridsearch returns lies in [0, max_scale_steps]; and after
    the first k passes of the scan, for every k, the running scale of
    the namespace [wk] the remaining passes go on from lies in [0, k]. *)
Theorem gridsearch_scale_in_bounds
        (B : Z -> ndarray R) (V : Z -> Score) (n : Z) (w : world) :
  1 <= n ->
  valid_run gaussian_filter snr (np_real (ks w)) (np_real (kappa_true w)) B V n ->
  (exists w',
      gridsearch zero gt gaussian_filter snr n w = (Ok tt, w')
      /\ 0 <= smooth_max w' <= n)
  /\ forall k, 0 <= k <= n ->
       exists wk later,
         range n = range k ++ later
         /\ scan zero gt gaussian_filter snr k w = (Ok tt, wk)
         /\ 0 <= smooth_max wk <= k
         /\ scan zero gt gaussian_filter snr n w = for_ later body wk.
Proof.
  intros Hn Hvalid. split.
  - destruct (gridsearch_valid B V n w) as
      (w' & Hrun & _ & _ & _ & Hbound & _); [lia | exact Hvalid |].
    exists w'. split; [exact Hrun | exact Hbound].
  - intros k Hk.
    destruct (scan_valid B V n k w) as
      (wk & Hrun & _ & _ & _ & _ & Hbest); [lia | exact Hvalid |].
    destruct (range_prefix n k Hk) as (later & Hsplit).
    exists wk, later. split; [exact Hsplit|]. split; [exact Hrun|]. split.
    + change (smooth_max wk) with (snd (snr_max wk, smooth_max wk)).
      rewrite Hbest. apply running_best_bounds; [|simpl; lia].
      intros i Hi. now apply range_In.
    + rewrite scan_eq in Hrun. rewrite scan_eq, Hsplit, for_app.
      unfold bind. rewrite Hrun. reflexivity.
Qed.

(** C7: the gridsearch is deterministic.  Two invocations on the same
    raw estimate and ground truth, whatever else the two namespaces
    hold, end the same way, make the same library calls, and when they
    return hand on the same best scale, smoothed field and score. *)
Theorem gridsearch_deterministic (n : Z) (w1 w2 : world) :
  ks w1 = ks w2 ->
  kappa_true w1 = kappa_true w2 ->
  fst (gridsearch zero gt gaussian_filter snr n w1)
  = fst (gridsearch zero gt gaussian_filter snr n w2)
  /\ (fst (gridsearch zero gt gaussian_filter snr n w1) = Ok tt ->
      outputs (snd (gridsearch zero gt gaussian_filter snr n w1))
      = outputs (snd (gridsearch zero gt gaussian_filter snr n w2)))
  /\ exists evs,
       calls (snd (gridsearch zero gt gaussian_filter snr n w1)) = calls w1 ++ evs
       /\ calls (snd (gridsearch zero gt gaussian_filter snr n w2)) = calls w2 ++ evs.
Proof.
  intros Hks Hkt. apply gridsearch_agree; congruence.
Qed.

(** Running the cell again in the namespace its first run left gives
    the same outputs. *)
Lemma gridsearch_rerun (n : Z) (w w' : world) :
  gridsearch zero gt gaussian_filter snr n w = (Ok tt, w') ->
  exists w'',
    gridsearch zero gt gaussian_filter snr n w' = (Ok tt, w'')
    /\ outputs w'' = outputs w'.
Proof.
  intros Hrun.
  destruct (gridsearch_any n w) as (Hks & Hkt). rewrite Hrun in Hks, Hkt.
  cbn [snd] in Hks, Hkt.
  destruct (gridsearch_agree n w' w) as (Hr & Hout & _); [congruence..|].
  rewrite Hrun in Hr, Hout. cbn [fst snd] in Hr, Hout.
  destruct (gridsearch zero gt gaussian_filter snr n w') as [r w''].
  cbn [fst snd] in *. subst r. exists w''. split; [reflexivity|].
  now apply Hout.
Qed.

(** C8: the gridsearch has no effect on its inputs.  However a run ends,
    [ks] and [kappa_true] hold after it what they held before. *)
Theorem gridsearch_inputs_unchanged (n : Z) (w : world) :
  ks (snd (gridsearch zero gt gaussian_filter snr n w)) = ks w
  /\ kappa_true (snd (gridsearch zero gt gaussian_filter snr n w))
     = kappa_true w.
Proof. exact (gridsearch_any n w). Qed.

(** C9: the field the gridsearch returns, blurred afresh at the scale
    kept, is the candidate that scored best during the scan.  When the
    blur at scale 0 gives the estimate back, the gridsearch and the
    search that carries the best candidate along return the same scale,
    field and score, and raise the same exception when a call raises. *)
Theorem gridsearch_recompute_is_tracked (n : Z) (w : world) :
  gaussian_filter (np_real (ks w)) 0 = Ok (np_real (ks w)) ->
  match tracked_search zero gt gaussian_filter snr
                       (np_real (ks w)) (np_real (kappa_true w)) n with
  | Ok (s, f, v) =>
      exists w',
        gridsearch zero gt gaussian_filter snr n w = (Ok tt, w')
        /\ outputs w' = (s, Some f, v)
  | Raise e => fst (gridsearch zero gt gaussian_filter snr n w) = Raise e
  end.
Proof.
  intros Hzero. unfold tracked_search. rewrite steps_range.
  rewrite gridsearch_eq. unfold bind. rewrite scan_eq.
  pose proof (for_tracked (range n) (set_smooth_max 0 (set_snr_max zero w))
                          (np_real (ks w))) as Ht.
  cbn [ks kappa_true smooth_max snr_max set_smooth_max set_snr_max] in Ht.
  destruct (tracked_scan gt gaussian_filter snr (np_real (ks w))
              (np_real (kappa_true w)) (map (fun i => i + 1) (range n))
              (0, np_real (ks w), zero)) as [[[s f] v]|e].
  - destruct Ht as (w1 & Hrun & Hks & _ & Hs & Hv & Hblur).
    rewrite Hrun. specialize (Hblur Hzero).
    rewrite <- Hks, <- Hs in Hblur. rewrite (recompute_ok w1 f Hblur).
    eexists. split; [reflexivity|]. unfold outputs. cbn. congruence.
  - destruct (for_ (range n) body (set_smooth_max 0 (set_snr_max zero w)))
      as [r w1]. cbn [fst] in Ht. subst r. reflexivity.
Qed.

(** C10: the gridsearch reads only the real parts of its inputs.  Two
    invocations whose raw estimates have the same real part and whose
    ground truths have the same real part end the same way, make the
    same library calls, and when they return hand on the same best
    scale, smoothed field and score, whatever the imaginary parts. *)
Theorem gridsearch_reads_real_parts (n : Z) (w1 w2 : world) :
  np_real (ks w1) = np_real (ks w2) ->
  np_real (kappa_true w1) = np_real (kappa_true w2) ->
  fst (gridsearch zero gt gaussian_filter snr n w1)
  = fst (gridsearch zero gt gaussian_filter snr n w2)
  /\ (fst (gridsearch zero gt gaussian_filter snr n w1) = Ok tt ->
      outputs (snd (gridsearch zero gt gaussian_filter snr n w1))
      = outputs (snd (gridsearch zero gt gaussian_filter snr n w2)))
  /\ exists evs,
       calls (snd (gridsearch zero gt gaussian_filter snr n w1)) = calls w1 ++ evs
       /\ calls (snd (gridsearch zero gt gaussian_filter snr n w2)) = calls w2 ++ evs.
Proof.
  intros Hks Hkt. now apply gridsearch_agree.
Qed.

End Runs.

(** ** The cell on small integer fields *)

Example run_tie :
  outputs (snd (Demo.run 5 Demo.w_tie)) = (3, Some [[3]], 9).
Proof. reflexivity. Qed.

Example cell_tie :
  outputs (snd (cell 0 Z.gtb Demo.blur Demo.score Demo.w_tie)) = (3, Some [[3]], 9).
Proof. reflexivity. Qed.

Lemma gtb_irrefl (a : Z) : (a >? a) = false.
Proof. destruct (Z.gtb_spec a a); [lia | reflexivity]. Defined.

Lemma gtb_trans (a b c : Z) :
  (a >? b) = true -> (b >? c) = true -> (a >? c) = true.
Proof.
  destruct (Z.gtb_spec a b); [|discriminate].
  destruct (Z.gtb_spec b c); [|discriminate].
  destruct (Z.gtb_spec a c); [reflexivity | lia].
Defined.

(** The stand-ins return on a 1x1 estimate and truth, at every scale from 0. *)
Lemma demo_valid_run (x t n : Z) :
  valid_run Demo.blur Demo.score [[x]] [[t]]
            (Demo.candidate [[x]]) (Demo.candidate_score [[t]] [[x]]) n.
Proof.
  split; intros s Hs.
  - unfold Demo.blur. destruct (Z.ltb_spec s 0); [lia | reflexivity].
  - reflexivity.
Defined.

Lemma gridsearch_scores_every_candidate_witness :
  valid_run Demo.blur Demo.score [[15]] [[3]]
            (Demo.candidate [[15]]) (Demo.candidate_score [[3]] [[15]]) 5
  /\ exists w',
      Demo.run 5 Demo.w_tie = (Ok tt, w')
      /\ calls w'
         = flat_map (fun s => [GaussianFilter [[15]] s;
                               Snr [[3]] (Demo.candidate [[15]] s)]) (steps 5)
           ++ [GaussianFilter [[15]] (smooth_max w')]
      /\ (forall s, 1 <= s <= 5 ->
                    (Demo.candidate_score [[3]] [[15]] s >? snr_max w') = false)
      /\ ((exists s, 1 <= s <= 5
                     /\ (Demo.candidate_score [[3]] [[15]] s >? 0) = true) ->
          exists s, 1 <= s <= 5
                    /\ snr_max w' = Demo.candidate_score [[3]] [[15]] s
                    /\ smooth_max w' = s).
Proof.
  split; [apply demo_valid_run|].
  apply (gridsearch_scores_every_candidate 0 Z.gtb Demo.blur Demo.score
           (Demo.candidate [[15]]) (Demo.candidate_score [[3]] [[15]])
           5 Demo.w_tie).
  - lia.
  - apply demo_valid_run.
  - exact gtb_irrefl.
  - exact gtb_trans.
Defined.

(** Scales 3 and 4 both score 9, the largest score; scale 3 is returned. *)
Lemma gridsearch_smallest_best_scale_witness :
  Demo.candidate_score [[3]] [[15]] 3 = Demo.candidate_score [[3]] [[15]] 4
  /\ exists w',
      Demo.run 5 Demo.w_tie = (Ok tt, w')
      /\ outputs w' = (3, Some (Demo.candidate [[15]] 3),
                       Demo.candidate_score [[3]] [[15]] 3).
Proof.
  split; [reflexivity|].
  apply (proj2 (gridsearch_smallest_best_scale 0 Z.gtb Demo.blur Demo.score
                  (Demo.candidate [[15]]) (Demo.candidate_score [[3]] [[15]])
                  5 Demo.w_tie (demo_valid_run 15 3 5))
               gtb_irrefl gtb_trans 3 4).
  - lia.
  - lia.
  - lia.
  - reflexivity.
  - reflexivity.
  - intros s Hs Hne3 Hne4.
    assert (Hc : s = 1 \/ s = 2 \/ s = 5) by lia.
    destruct Hc as [-> | [-> | ->]]; reflexivity.
Defined.

(** The two candidates of [w_low] tie at -8, the largest candidate score,
    and the scale returned is 0, not the smaller of the two. *)
Lemma tie_below_zero_returns_scale_0 :
  Demo.score [[1]] (Demo.candidate [[-4]] 1) = Ok (-8)
  /\ Demo.score [[1]] (Demo.candidate [[-4]] 2) = Ok (-8)
  /\ fst (Demo.run 2 Demo.w_low) = Ok tt
  /\ smooth_max (snd (Demo.run 2 Demo.w_low)) = 0
  /\ smooth_max (snd (Demo.run 2 Demo.w_low)) <> 1.
Proof.
  repeat (split; [reflexivity|]). vm_compute. discriminate.
Qed.

Lemma gridsearch_scorer_failure_witness :
  (exists later,
      calls (snd (Demo.run 30 Demo.w_mismatch))
      = GaussianFilter (Demo.zeros 4 4) 1 :: later)
  /\ forall f e,
      Demo.blur (Demo.zeros 4 4) 1 = Ok f ->
      Demo.score (Demo.zeros 8 8) f = Raise e ->
      exists w',
        Demo.run 30 Demo.w_mismatch = (Raise e, w')
        /\ calls w' = [GaussianFilter (Demo.zeros 4 4) 1; Snr (Demo.zeros 8 8) f]
        /\ optimal_ks w' = None.
Proof.
  apply (gridsearch_scorer_failure 0 Z.gtb Demo.blur Demo.score 30 Demo.w_mismatch).
  lia.
Defined.

(** On a 4x4 estimate and an 8x8 truth the failure comes from the scorer,
    after the blur at scale 1 has been computed and stored. *)
Lemma mismatch_fails_after_blur :
  shape (Demo.zeros 4 4) <> shape (Demo.zeros 8 8)
  /\ fst (Demo.run 30 Demo.w_mismatch) = Raise DimensionMismatch
  /\ calls (snd (Demo.run 30 Demo.w_mismatch))
     = [GaussianFilter (Demo.zeros 4 4) 1; Snr (Demo.zeros 8 8) (Demo.zeros 4 4)]
  /\ smoothed_ks (snd (Demo.run 30 Demo.w_mismatch)) = Some (Demo.zeros 4 4).
Proof.
  split; [vm_compute; discriminate|]. repeat (split; [reflexivity|]). reflexivity.
Qed.

Lemma gridsearch_trivial_best_witness :
  (forall s, 1 <= s <= 2 -> (Demo.candidate_score [[1]] [[-4]] s >? 0) = false)
  /\ exists w0 w',
      scan 0 Z.gtb Demo.blur Demo.score 0 Demo.w_low = (Ok tt, w0)
      /\ snr_max w0 = 0 /\ smooth_max w0 = 0
      /\ scan 0 Z.gtb Demo.blur Demo.score 2 Demo.w_low
         = for_ (range 2) (loop_body Z.gtb Demo.blur Demo.score) w0
      /\ Demo.run 2 Demo.w_low = (Ok tt, w')
      /\ outputs w' = (0, Some (Demo.candidate [[-4]] 0), 0).
Proof.
  assert (Hlow : forall s, 1 <= s <= 2 ->
                           (Demo.candidate_score [[1]] [[-4]] s >? 0) = false).
  { intros s Hs. assert (Hc : s = 1 \/ s = 2) by lia.
    destruct Hc as [-> | ->]; reflexivity. }
  split; [exact Hlow|].
  apply (gridsearch_trivial_best 0 Z.gtb Demo.blur Demo.score
           (Demo.candidate [[-4]]) (Demo.candidate_score [[1]] [[-4]])
           2 Demo.w_low).
  - lia.
  - apply demo_valid_run.
  - exact Hlow.
Defined.

Lemma gridsearch_scale_in_bounds_witness :
  (exists w', Demo.run 5 Demo.w_tie = (Ok tt, w') /\ 0 <= smooth_max w' <= 5)
  /\ forall k, 0 <= k <= 5 ->
       exists wk later,
         range 5 = range k ++ later
         /\ scan 0 Z.gtb Demo.blur Demo.score k Demo.w_tie = (Ok tt, wk)
         /\ 0 <= smooth_max wk <= k
         /\ scan 0 Z.gtb Demo.blur Demo.score 5 Demo.w_tie
            = for_ later (loop_body Z.gtb Demo.blur Demo.score) wk.
Proof.
  apply (gridsearch_scale_in_bounds 0 Z.gtb Demo.blur Demo.score
           (Demo.candidate [[15]]) (Demo.candidate_score [[3]] [[15]])
           5 Demo.w_tie).
  - lia.
  - apply demo_valid_run.
Defined.

(** A fresh namespace and a used one that hold the same inputs. *)
Lemma gridsearch_deterministic_witness :
  fst (Demo.run 5 Demo.w_tie) = fst (Demo.run 5 Demo.w_stale)
  /\ (fst (Demo.run 5 Demo.w_tie) = Ok tt ->
      outputs (snd (Demo.run 5 Demo.w_tie))
      = outputs (snd (Demo.run 5 Demo.w_stale)))
  /\ exists evs,
       calls (snd (Demo.run 5 Demo.w_tie)) = calls Demo.w_tie ++ evs
       /\ calls (snd (Demo.run 5 Demo.w_stale)) = calls Demo.w_stale ++ evs.
Proof.
  apply (gridsearch_deterministic 0 Z.gtb Demo.blur Demo.score
           5 Demo.w_tie Demo.w_stale); reflexivity.
Defined.

Lemma gridsearch_recompute_is_tracked_witness :
  tracked_search 0 Z.gtb Demo.blur Demo.score [[15]] [[3]] 5 = Ok (3, [[3]], 9)
  /\ exists w',
      Demo.run 5 Demo.w_tie = (Ok tt, w')
      /\ outputs w' = (3, Some [[3]], 9).
Proof.
  split; [reflexivity|].
  apply (gridsearch_recompute_is_tracked 0 Z.gtb Demo.blur Demo.score
           5 Demo.w_tie).
  reflexivity.
Defined.

(** The same real parts under imaginary parts 0 and 0 here, 7 and -2 there. *)
Lemma gridsearch_reads_real_parts_witness :
  ks Demo.w_tie <> ks Demo.w_imag
  /\ kappa_true Demo.w_tie <> kappa_true Demo.w_imag
  /\ fst (Demo.run 5 Demo.w_tie) = fst (Demo.run 5 Demo.w_imag)
  /\ (fst (Demo.run 5 Demo.w_tie) = Ok tt ->
      outputs (snd (Demo.run 5 Demo.w_tie))
      = outputs (snd (Demo.run 5 Demo.w_imag)))
  /\ exists evs,
       calls (snd (Demo.run 5 Demo.w_tie)) = calls Demo.w_tie ++ evs
       /\ calls (snd (Demo.run 5 Demo.w_imag)) = calls Demo.w_imag ++ evs.
Proof.
  split; [discriminate|]. split; [discriminate|].
  apply (gridsearch_reads_real_parts 0 Z.gtb Demo.blur Demo.score
           5 Demo.w_tie Demo.w_imag); reflexivity.
Defined.

(** ** More on the scan *)

Section MoreBest.

Context {Score : Type}.
Variable zero : Score.
Variable gt : Score -> Score -> bool.
Variable V : Z -> Score.

(** Once the running scale is positive it stays so. *)
Lemma running_best_positive (l : list Z) (acc : Score * Z) :
  (forall i, In i l -> 0 <= i) ->
  1 <= snd acc ->
  1 <= snd (running_best gt V l acc).
Proof.
  intros Hl Hacc.
  destruct (running_best_origin gt V l acc) as [-> | [i [Hi ->]]]; [exact Hacc|].
  simpl. specialize (Hl i Hi). lia.
Qed.

(** From (0, 0), the running scale is still 0 only if no pass scored
    more than 0. *)
Lemma running_best_zero (l : list Z) (i : Z) :
  (forall j, In j l -> 0 <= j) ->
  snd (running_best gt V l (zero, 0)) = 0 ->
  In i l -> gt (V (i + 1)) zero = false.
Proof.
  induction l as [|j l IH]; intros Hl Hzero Hi; [destruct Hi|].
  rewrite running_best_cons in Hzero. unfold keep_best in Hzero.
  cbn [fst] in Hzero.
  destruct (gt (V (j + 1)) zero) eqn:Hj.
  - exfalso.
    assert (Hpos : 1 <= snd (running_best gt V l (V (j + 1), j + 1))).
    { apply running_best_positive.
      - intros k Hk. apply Hl. now right.
      - simpl. specialize (Hl j (or_introl eq_refl)). lia. }
    lia.
  - destruct Hi as [-> | Hi]; [exact Hj|].
    apply IH; [|exact Hzero | exact Hi].
    intros k Hk. apply Hl. now right.
Qed.

(** Later passes leave the running pair alone or move the scale into
    their own range. *)
Lemma running_best_later (l : list Z) (acc : Score * Z) (n : Z) :
  (forall j, In j l -> n <= j) ->
  running_best gt V l acc = acc \/ n < snd (running_best gt V l acc).
Proof.
  intros Hl.
  destruct (running_best_origin gt V l acc) as [Heq | [i [Hi Heq]]];
    [now left | right].
  rewrite Heq. simpl. specialize (Hl i Hi). lia.
Qed.

End MoreBest.

Section MoreRuns.

Context {R Score : Type}.
Variable zero : Score.
Variable gt : Score -> Score -> bool.
Variable gaussian_filter : ndarray R -> Z -> result (ndarray R).
Variable snr : ndarray R -> ndarray R -> result Score.

Local Notation "'world'" := (@world R Score).
Local Notation "'body'" := (loop_body gt gaussian_filter snr).

Lemma range_last (n : Z) : 1 <= n -> range n = range (n - 1) ++ [n - 1].
Proof.
  intros Hn. destruct (range_split n (n - 1)) as (later & Heq & Hlater); [lia|].
  destruct later as [|j later]; [exact Heq|].
  specialize (Hlater j (or_introl eq_refl)). lia.
Qed.

Lemma range_from (n m : Z) :
  0 <= n <= m ->
  exists later, range m = range n ++ later /\ forall j, In j later -> n <= j.
Proof.
  intros Hn. destruct (Z.eq_dec n m) as [->|Hne].
  - exists []. split; [now rewrite app_nil_r | intros j []].
  - destruct (range_split m n) as (later & Heq & Hlater); [lia|].
    exists (n :: later). split; [exact Heq|].
    intros j [<- | Hj]; [lia|]. specialize (Hlater j Hj). lia.
Qed.

Lemma valid_run_shorter (raw truth : ndarray R) (B : Z -> ndarray R)
      (V : Z -> Score) (n m : Z) :
  n <= m ->
  valid_run gaussian_filter snr raw truth B V m ->
  valid_run gaussian_filter snr raw truth B V n.
Proof.
  intros Hn [Hblur Hsnr]. split; intros s Hs; [apply Hblur | apply Hsnr]; lia.
Qed.

(** What a pass that goes through leaves in [smoothed_ks] and [snr_iter]. *)
Lemma loop_body_last (i : Z) (w : world) (f : ndarray R) (v : Score) :
  gaussian_filter (np_real (ks w)) (i + 1) = Ok f ->
  snr (np_real (kappa_true w)) f = Ok v ->
  smoothed_ks (snd (body i w)) = Some f /\ snr_iter (snd (body i w)) = Some v.
Proof.
  intros Hf Hv.
  unfold loop_body, bind, read, lookup, call, assign, float, np_real_id.
  cbn [ks kappa_true smoothed_ks log set_smoothed_ks]. rewrite Hf.
  cbn [ks kappa_true smoothed_ks log set_smoothed_ks]. rewrite Hv.
  cbn [snr_max snr_iter log set_smoothed_ks set_snr_iter].
  destruct (gt v (snr_max w)); cbn; split; reflexivity.
Qed.

Lemma recompute_keeps (w : world) :
  smoothed_ks (snd (recompute gaussian_filter w)) = smoothed_ks w
  /\ snr_iter (snd (recompute gaussian_filter w)) = snr_iter w
  /\ optimal_ks (snd (recompute gaussian_filter w))
     = match gaussian_filter (np_real (ks w)) (smooth_max w) with
       | Ok f => Some f
       | Raise _ => optimal_ks w
       end.
Proof.
  destruct (gaussian_filter (np_real (ks w)) (smooth_max w)) as [f|e] eqn:Hf.
  - rewrite (recompute_ok _ w f Hf). now cbn.
  - rewrite (recompute_raises _ w e Hf). now cbn.
Qed.

(** X1: after a gridsearch of max_scale_steps >= 1 whose library calls
    return, the names [smoothed_ks] and [snr_iter] hold the candidate and
    the score of the last scale scanned, max_scale_steps, whichever scale
    was the best; only [optimal_ks] holds the best candidate. *)
Theorem gridsearch_leaves_last_candidate
        (B : Z -> ndarray R) (V : Z -> Score) (n : Z) (w : world) :
  1 <= n ->
  valid_run gaussian_filter snr (np_real (ks w)) (np_real (kappa_true w)) B V n ->
  exists w',
    gridsearch zero gt gaussian_filter snr n w = (Ok tt, w')
    /\ smoothed_ks w' = Some (B n)
    /\ snr_iter w' = Some (V n)
    /\ optimal_ks w' = Some (B (smooth_max w')).
Proof.
  intros Hn Hvalid.
  destruct (gridsearch_valid zero gt gaussian_filter snr B V n w)
    as (w' & Hrun & _ & _ & _ & _ & Hopt & _); [lia | exact Hvalid |].
  exists w'. split; [exact Hrun|].
  destruct (scan_valid zero gt gaussian_filter snr B V n (n - 1) w)
    as (w1 & Hscan & Hks & Hkt & _); [lia | exact Hvalid |].
  rewrite scan_eq in Hscan.
  rewrite gridsearch_eq in Hrun. unfold bind in Hrun.
  rewrite scan_eq, (range_last n Hn), for_app in Hrun. unfold bind in Hrun.
  rewrite Hscan, for_cons in Hrun. unfold bind in Hrun.
  destruct Hvalid as [Hblur Hsnr].
  assert (Hf : gaussian_filter (np_real (ks w1)) (n - 1 + 1) = Ok (B n)).
  { rewrite Hks. replace (n - 1 + 1) with n by lia. apply Hblur. lia. }
  assert (Hv : snr (np_real (kappa_true w1)) (B n) = Ok (V n)).
  { rewrite Hkt. apply Hsnr. lia. }
  destruct (loop_body_last (n - 1) w1 (B n) (V n) Hf Hv) as [Hlast Hiter].
  destruct (loop_body_ok gt gaussian_filter snr (n - 1) w1 (B n) (V n) Hf Hv)
    as (w2 & Hbody & _).
  rewrite Hbody in Hrun, Hlast, Hiter. rewrite for_nil in Hrun.
  cbn [snd] in Hlast, Hiter.
  destruct (recompute_keeps w2) as (Hk1 & Hk2 & _).
  rewrite Hrun in Hk1, Hk2. cbn [snd] in Hk1, Hk2.
  rewrite Hk1, Hk2. repeat split; assumption.
Qed.

(** X2: on a run whose library calls return, the gridsearch returns
    scale 0 exactly when no candidate scored strictly more than 0; and a
    scale other than 0 comes with its own score and its own smoothed
    field.  Nothing is assumed of the comparison. *)
Theorem gridsearch_scale_zero_iff
        (B : Z -> ndarray R) (V : Z -> Score) (n : Z) (w : world) :
  0 <= n ->
  valid_run gaussian_filter snr (np_real (ks w)) (np_real (kappa_true w)) B V n ->
  exists w',
    gridsearch zero gt gaussian_filter snr n w = (Ok tt, w')
    /\ (smooth_max w' = 0 <-> forall s, 1 <= s <= n -> gt (V s) zero = false)
    /\ (smooth_max w' <> 0 ->
        1 <= smooth_max w' <= n
        /\ snr_max w' = V (smooth_max w')
        /\ optimal_ks w' = Some (B (smooth_max w'))).
Proof.
  intros Hn Hvalid.
  destruct (gridsearch_valid zero gt gaussian_filter snr B V n w Hn Hvalid)
    as (w' & Hrun & _ & _ & Hbest & Hbound & Hopt & _).
  exists w'. split; [exact Hrun|]. split; [split|].
  - intros Hzero s Hs. replace s with (s - 1 + 1) by lia.
    apply (running_best_zero zero gt V (range n)).
    + intros j Hj. apply range_In in Hj. lia.
    + rewrite <- Hbest. exact Hzero.
    + apply range_In. lia.
  - intros Hlow. rewrite running_best_keep in Hbest.
    + now injection Hbest.
    + intros i Hi. apply range_In in Hi. apply Hlow. lia.
  - intros Hne.
    destruct (running_best_origin gt V (range n) (zero, 0))
      as [Heq | (i & Hi & Heq)]; rewrite Heq in Hbest.
    + injection Hbest as _ Hscale. contradiction.
    + injection Hbest as Hscore Hscale. apply range_In in Hi.
      rewrite Hscale. repeat split; try assumption; try lia.
      now rewrite <- Hscale.
Qed.

(** X3: scanning further never does worse.  For n <= m steps on a run
    whose library calls return, the score reported for n steps is not
    strictly greater than the one for m steps, the scale for m steps is
    not smaller, and when the scale for m steps lies within the first n
    the two searches return the same scale, field and score. *)
Theorem gridsearch_longer_scan
        (B : Z -> ndarray R) (V : Z -> Score) (n m : Z) (w : world) :
  0 <= n <= m ->
  valid_run gaussian_filter snr (np_real (ks w)) (np_real (kappa_true w)) B V m ->
  (forall a, gt a a = false) ->
  (forall a b c, gt a b = true -> gt b c = true -> gt a c = true) ->
  exists wn wm,
    gridsearch zero gt gaussian_filter snr n w = (Ok tt, wn)
    /\ gridsearch zero gt gaussian_filter snr m w = (Ok tt, wm)
    /\ gt (snr_max wn) (snr_max wm) = false
    /\ smooth_max wn <= smooth_max wm
    /\ (smooth_max wm <= n -> outputs wm = outputs wn).
Proof.
  intros Hnm Hvalid Hirrefl Htrans.
  destruct (gridsearch_valid zero gt gaussian_filter snr B V m w)
    as (wm & Hrunm & _ & _ & Hbestm & _ & Hoptm & _); [lia | exact Hvalid |].
  destruct (gridsearch_valid zero gt gaussian_filter snr B V n w)
    as (wn & Hrunn & _ & _ & Hbestn & Hboundn & Hoptn & _);
    [lia | now apply (valid_run_shorter _ _ B V n m) |].
  exists wn, wm. split; [exact Hrunn|]. split; [exact Hrunm|].
  destruct (range_from n m Hnm) as (later & Hsplit & Hlater).
  rewrite Hsplit, running_best_app, <- Hbestn in Hbestm.
  split; [|split].
  - change (snr_max wm) with (fst (snr_max wm, smooth_max wm)). rewrite Hbestm.
    apply running_best_grows; [exact Htrans | apply Hirrefl].
  - destruct (running_best_later gt V later (snr_max wn, smooth_max wn) n Hlater)
      as [Heq | Hlt]; rewrite <- Hbestm in *.
    + injection Heq as _ Hscale. lia.
    + cbn [snd] in Hlt. lia.
  - intros Hin.
    destruct (running_best_later gt V later (snr_max wn, smooth_max wn) n Hlater)
      as [Heq | Hlt]; rewrite <- Hbestm in *.
    + injection Heq as Hscore Hscale.
      unfold outputs. rewrite Hoptm, Hoptn, Hscore, Hscale. reflexivity.
    + cbn [snd] in Hlt. lia.
Qed.

End MoreRuns.

(** ** A library call that raises in the middle of the scan *)

Section Failures.

Context {R Score : Type}.
Variable zero : Score.
Variable gt : Score -> Score -> bool.
Variable gaussian_filter : ndarray R -> Z -> result (ndarray R).
Variable snr : ndarray R -> ndarray R -> result Score.

Local Notation "'world'" := (@world R Score).
Local Notation "'body'" := (loop_body gt gaussian_filter snr).

(** The scan up to pass [k], when the passes before it go through. *)
Lemma scan_before (B : Z -> ndarray R) (V : Z -> Score) (n k : Z) (w : world) :
  1 <= k <= n ->
  (forall s, 1 <= s < k ->
             gaussian_filter (np_real (ks w)) s = Ok (B s)
             /\ snr (np_real (kappa_true w)) (B s) = Ok (V s)) ->
  exists w1 later,
    scan zero gt gaussian_filter snr n w
    = bind (body (k - 1)) (fun _ => for_ later body) w1
    /\ ks w1 = ks w /\ kappa_true w1 = kappa_true w
    /\ optimal_ks w1 = optimal_ks w
    /\ calls w1 = calls w ++ scan_calls (np_real (ks w))
                                        (np_real (kappa_true w)) B (range (k - 1))
    /\ (snr_max w1, smooth_max w1) = running_best gt V (range (k - 1)) (zero, 0).
Proof.
  intros Hk Hbefore.
  destruct (range_split n (k - 1)) as (later & Hsplit & _); [lia|].
  destruct (for_valid gt gaussian_filter snr
              (np_real (ks w)) (np_real (kappa_true w)) B V (range (k - 1))
              (set_smooth_max 0 (set_snr_max zero w)))
    as (w1 & Hrun & Hks & Hkt & Hopt & Hcalls & Hbest);
    [reflexivity | reflexivity | |].
  { intros i Hi. apply range_In in Hi. apply Hbefore. lia. }
  exists w1, later. split; [|repeat split; assumption].
  rewrite scan_eq, Hsplit, for_app. unfold bind at 1. rewrite Hrun.
  apply for_cons.
Qed.

(** X4: when the blur raises at scale k, after the passes of the scales
    below k went through, the gridsearch ends with that exception right
    there: the scales after k are never tried, the output field is not
    written, and [snr_max] and [smooth_max] are left holding the best of
    the scales below k. *)
Theorem gridsearch_blur_raises_at
        (B : Z -> ndarray R) (V : Z -> Score) (n k : Z) (e : exn) (w : world) :
  1 <= k <= n ->
  (forall s, 1 <= s < k ->
             gaussian_filter (np_real (ks w)) s = Ok (B s)
             /\ snr (np_real (kappa_true w)) (B s) = Ok (V s)) ->
  gaussian_filter (np_real (ks w)) k = Raise e ->
  exists w',
    gridsearch zero gt gaussian_filter snr n w = (Raise e, w')
    /\ calls w' = calls w
                  ++ scan_calls (np_real (ks w)) (np_real (kappa_true w)) B
                                (range (k - 1))
                  ++ [GaussianFilter (np_real (ks w)) k]
    /\ (snr_max w', smooth_max w') = running_best gt V (range (k - 1)) (zero, 0)
    /\ optimal_ks w' = optimal_ks w.
Proof.
  intros Hk Hbefore Hraise.
  destruct (scan_before B V n k w Hk Hbefore)
    as (w1 & later & Hscan & Hks & Hkt & Hopt & Hcalls & Hbest).
  assert (Hf : gaussian_filter (np_real (ks w1)) (k - 1 + 1) = Raise e).
  { rewrite Hks. replace (k - 1 + 1) with k by lia. exact Hraise. }
  rewrite gridsearch_eq. unfold bind at 1. rewrite Hscan. unfold bind.
  rewrite (loop_body_blur_raises gt gaussian_filter snr (k - 1) w1 e Hf).
  eexists. split; [reflexivity|]. cbn.
  rewrite Hcalls, Hks, <- app_assoc.
  replace (k - 1 + 1) with k by lia. repeat split; assumption.
Qed.

(** X5: when the scorer raises on the candidate of scale k, after the
    passes of the scales below k went through, the gridsearch ends with
    that exception right after that call: the output field is not
    written, and [snr_max] and [smooth_max] are left holding the best of
    the scales below k. *)
Theorem gridsearch_scorer_raises_at
        (B : Z -> ndarray R) (V : Z -> Score) (n k : Z)
        (f : ndarray R) (e : exn) (w : world) :
  1 <= k <= n ->
  (forall s, 1 <= s < k ->
             gaussian_filter (np_real (ks w)) s = Ok (B s)
             /\ snr (np_real (kappa_true w)) (B s) = Ok (V s)) ->
  gaussian_filter (np_real (ks w)) k = Ok f ->
  snr (np_real (kappa_true w)) f = Raise e ->
  exists w',
    gridsearch zero gt gaussian_filter snr n w = (Raise e, w')
    /\ calls w' = calls w
                  ++ scan_calls (np_real (ks w)) (np_real (kappa_true w)) B
                                (range (k - 1))
                  ++ [GaussianFilter (np_real (ks w)) k;
                      Snr (np_real (kappa_true w)) f]
    /\ (snr_max w', smooth_max w') = running_best gt V (range (k - 1)) (zero, 0)
    /\ optimal_ks w' = optimal_ks w.
Proof.
  intros Hk Hbefore Hblur Hraise.
  destruct (scan_before B V n k w Hk Hbefore)
    as (w1 & later & Hscan & Hks & Hkt & Hopt & Hcalls & Hbest).
  assert (Hf : gaussian_filter (np_real (ks w1)) (k - 1 + 1) = Ok f).
  { rewrite Hks. replace (k - 1 + 1) with k by lia. exact Hblur. }
  assert (Hv : snr (np_real (kappa_true w1)) f = Raise e).
  { rewrite Hkt. exact Hraise. }
  destruct (loop_body_snr_raises gt gaussian_filter snr (k - 1) w1 f e Hf Hv)
    as (w2 & Hbody & Hopt2 & Hmax2 & Hscale2 & Hcalls2).
  rewrite gridsearch_eq. unfold bind at 1. rewrite Hscan. unfold bind.
  rewrite Hbody. exists w2. split; [reflexivity|].
  rewrite Hcalls2, Hcalls, Hks, Hkt, Hopt2, Hmax2, Hscale2, <- app_assoc.
  replace (k - 1 + 1) with k by lia. repeat split; assumption.
Qed.

End Failures.

(** ** The cells around the gridsearch *)

Section NotebookRuns.

Context {R Score Data : Type}.
Variable zero : Score.
Variable gt : Score -> Score -> bool.
Variable gaussian_filter : ndarray R -> Z -> result (ndarray R).
Variable snr : ndarray R -> ndarray R -> result Score.
Variable ks_estimate : Data -> result (ndarray (R * R)).
Variable analyse : ndarray (R * R) -> @pyarray R -> result (Score * Score).
Variable np_min : ndarray R -> result R.
Variable round2 : Score -> Score.

Local Notation "'session'" := (@session R Score Data).

(** [make_plot] with statistics, when [stats.analyse] returns. *)
Lemma make_plot_stats (x : @pyarray R) (iteration : Z) (s : session)
      (p : Score * Score) :
  analyse (kappa_true (vars s)) x = Ok p ->
  exists s',
    make_plot analyse x iteration true s = (Done tt, s')
    /\ vars s' = vars s /\ sol s' = sol s /\ data s' = data s
    /\ trace s' = trace s ++ [Imshow (real_part x); AxisOff; PltShow;
                              Analyse (kappa_true (vars s)) x;
                              Print iteration (fst p) (snd p)].
Proof.
  intros Hp. unfold make_plot, nbind, nread, ncall, emit.
  cbn [vars record]. rewrite Hp.
  eexists. split; [reflexivity|]. cbn. rewrite <- !app_assoc. repeat split.
Qed.

(** The start of the gridsearch cell: the estimate bound to [ks]. *)
Lemma ks_cell_eq (n : Z) (s : session) (k : ndarray (R * R)) :
  ks_estimate (data s) = Ok k ->
  ks_cell_steps zero gt gaussian_filter snr ks_estimate analyse n s
  = nbind (lift (gridsearch zero gt gaussian_filter snr n))
          (fun _ =>
             nbind (nlookup (fun s => optimal_ks (vars s)))
                   (fun best =>
                      nbind (nread (fun s => smooth_max (vars s)))
                            (fun scale => make_plot analyse (RealArray best)
                                                    scale true)))
          (set_vars (set_ks k (vars s)) (record (KsEstimate (data s)) s)).
Proof.
  intros Hk. unfold ks_cell_steps. unfold nbind at 1 2 3, nread at 1, ncall.
  rewrite Hk. reflexivity.
Qed.

(** X6: the whole cell on a run whose library calls return.  Whatever
    [ks] held, it is bound to the estimate of the data; the image shown is
    the candidate of the scale the search returned, the line printed gives
    that scale as its iteration and the two statistics of that candidate
    against the ground truth as it is, imaginary part included; and
    nothing else is drawn or printed. *)
Theorem ks_cell_shows_best
        (B : Z -> ndarray R) (V : Z -> Score) (A : Z -> Score * Score)
        (n : Z) (s : session) (k : ndarray (R * R)) :
  0 <= n ->
  ks_estimate (data s) = Ok k ->
  valid_run gaussian_filter snr (np_real k) (np_real (kappa_true (vars s))) B V n ->
  (forall c, 0 <= c <= n ->
             analyse (kappa_true (vars s)) (RealArray (B c)) = Ok (A c)) ->
  exists s',
    ks_cell_steps zero gt gaussian_filter snr ks_estimate analyse n s
    = (Done tt, s')
    /\ ks (vars s') = k
    /\ 0 <= smooth_max (vars s') <= n
    /\ optimal_ks (vars s') = Some (B (smooth_max (vars s')))
    /\ trace s'
       = trace s
         ++ [KsEstimate (data s);
             Imshow (B (smooth_max (vars s'))); AxisOff; PltShow;
             Analyse (kappa_true (vars s)) (RealArray (B (smooth_max (vars s'))));
             Print (smooth_max (vars s'))
                   (fst (A (smooth_max (vars s'))))
                   (snd (A (smooth_max (vars s'))))].
Proof.
  intros Hn Hk Hvalid Hstats.
  destruct (gridsearch_valid zero gt gaussian_filter snr B V n
              (set_ks k (vars s)) Hn Hvalid)
    as (w' & Hrun & Hks & Hkt & _ & Hbound & Hopt & _).
  cbn [ks kappa_true set_ks] in Hks, Hkt.
  rewrite (ks_cell_eq n s k Hk).
  unfold nbind at 1, lift. cbn [vars set_vars]. rewrite Hrun.
  unfold nbind at 1, nlookup. cbn [vars set_vars]. rewrite Hopt.
  unfold nbind at 1, nread. cbn [vars set_vars].
  destruct (make_plot_stats (RealArray (B (smooth_max w'))) (smooth_max w')
              (set_vars w' (record (KsEstimate (data s)) s))
              (A (smooth_max w')))
    as (s' & Hplot & Hvars & _ & _ & Htrace).
  { cbn [vars set_vars]. rewrite Hkt. now apply Hstats. }
  cbn [vars set_vars record trace] in Hvars, Htrace.
  exists s'. split; [exact Hplot|]. rewrite Hvars, Htrace, Hkt, <- app_assoc.
  repeat split; try assumption; apply Hbound.
Qed.

(** A search that raises does not write the output field. *)
Lemma gridsearch_failure_keeps_output (n : Z) (w : @world R Score) (e : exn) :
  fst (gridsearch zero gt gaussian_filter snr n w) = Raise e ->
  optimal_ks (snd (gridsearch zero gt gaussian_filter snr n w)) = optimal_ks w.
Proof.
  rewrite gridsearch_eq. unfold bind. rewrite scan_eq.
  destruct (for_any gt gaussian_filter snr (range n)
                    (set_smooth_max 0 (set_snr_max zero w))) as (_ & _ & Hopt).
  destruct (for_ (range n) (loop_body gt gaussian_filter snr)
                 (set_smooth_max 0 (set_snr_max zero w))) as [[[]|e1] w1];
    cbn [snd] in Hopt; [|intros _; exact Hopt].
  destruct (recompute_keeps gaussian_filter w1) as (_ & _ & Hkeep).
  destruct (gaussian_filter (np_real (ks w1)) (smooth_max w1)) as [f|e2] eqn:Hf.
  - rewrite (recompute_ok gaussian_filter w1 f Hf). discriminate.
  - intros _. rewrite Hkeep. exact Hopt.
Qed.

(** The whole cell when the search raises. *)
Lemma ks_cell_failure (n : Z) (s : session) (k : ndarray (R * R)) (e : exn) :
  ks_estimate (data s) = Ok k ->
  fst (gridsearch zero gt gaussian_filter snr n (set_ks k (vars s))) = Raise e ->
  exists s',
    ks_cell_steps zero gt gaussian_filter snr ks_estimate analyse n s
    = (Failed (Cell e), s')
    /\ trace s' = trace s ++ [KsEstimate (data s)]
    /\ sol s' = sol s
    /\ ks (vars s') = k
    /\ optimal_ks (vars s') = optimal_ks (vars s).
Proof.
  intros Hk Hraise.
  pose proof (gridsearch_failure_keeps_output n (set_ks k (vars s)) e Hraise)
    as Hopt.
  destruct (gridsearch_any zero gt gaussian_filter snr n (set_ks k (vars s)))
    as (Hks & _).
  rewrite (ks_cell_eq n s k Hk). unfold nbind at 1, lift. cbn [vars set_vars].
  destruct (gridsearch zero gt gaussian_filter snr n (set_ks k (vars s)))
    as [r w'].
  cbn [fst snd] in *. subst r.
  eexists. split; [reflexivity|]. cbn. repeat split; assumption.
Qed.

(** X7: when the estimate is computed and the search then raises, the
    cell ends with the same exception and nothing is drawn or printed;
    [ks] already holds the new estimate, and [optimal_ks] still holds what
    it held before the cell. *)
Theorem ks_cell_failure_draws_nothing
        (n : Z) (s : session) (k : ndarray (R * R)) (e : exn) :
  ks_estimate (data s) = Ok k ->
  fst (gridsearch zero gt gaussian_filter snr n (set_ks k (vars s))) = Raise e ->
  exists s',
    ks_cell_steps zero gt gaussian_filter snr ks_estimate analyse n s
    = (Failed (Cell e), s')
    /\ trace s' = trace s ++ [KsEstimate (data s)]
    /\ ks (vars s') = k
    /\ optimal_ks (vars s') = optimal_ks (vars s).
Proof.
  intros Hk Hraise.
  destruct (ks_cell_failure n s k e Hk Hraise)
    as (s' & Hrun & Htrace & _ & Hks & Hopt).
  exists s'. repeat split; assumption.
Qed.

(** *** The comparison figure *)

Lemma nbind_done {A B : Type} (m : @N R Score Data A) (f : A -> @N R Score Data B)
      (s s' : session) (a : A) :
  m s = (Done a, s') -> nbind m f s = f a s'.
Proof. intros Hm. unfold nbind. now rewrite Hm. Qed.

Lemma index_ok {A : Type} (l : list A) (i : Z) (a : A) (s : session) :
  0 <= i -> nth_error l (Z.to_nat i) = Some a -> index l i s = (Done a, s).
Proof.
  intros Hi Hnth. unfold index.
  assert (Hlt : (i <? 0) = false) by (apply Z.ltb_ge; exact Hi).
  rewrite Hlt. cbv zeta. rewrite Hlt, Hnth. reflexivity.
Qed.

(** One panel, when its library calls return. *)
Lemma panel_run (est : list (ndarray R)) (i : Z) (reference img : ndarray R)
      (title : String.string) (vmin : R) (v : Score) (s : session) :
  0 <= i ->
  nth_error est 0 = Some reference ->
  nth_error est (Z.to_nat i) = Some img ->
  nth_error Titles.titles (Z.to_nat i) = Some title ->
  np_min reference = Ok vmin ->
  ((i >? 0) = true -> snr reference img = Ok v) ->
  exists s',
    panel snr np_min round2 est i s = (Done tt, s')
    /\ trace s'
       = trace s ++ panel_actions reference img vmin i title
                                  (if i >? 0 then Some (round2 v) else None)
    /\ sol s' = sol s
    /\ vars s' = (if i >? 0 then log (Snr reference img) (vars s) else vars s).
Proof.
  intros Hi Href Himg Htitle Hmin Hsnr. unfold panel.
  rewrite (nbind_done _ _ _ _ _ (index_ok est i img s Hi Himg)).
  rewrite (nbind_done _ _ _ _ _ (index_ok est 0 reference s (Z.le_refl 0) Href)).
  unfold nbind at 1, ncall. rewrite Hmin.
  unfold nbind at 1, emit.
  rewrite (nbind_done _ _ _ _ _ (index_ok Titles.titles i title _ Hi Htitle)).
  unfold nbind at 1 2.
  destruct (i >? 0) eqn:Hpos.
  - rewrite (nbind_done _ _ _ _ _
               (index_ok est 0 reference _ (Z.le_refl 0) Href)).
    rewrite (nbind_done _ _ _ _ _ (index_ok est i img _ Hi Himg)).
    unfold nbind, lift, call. cbn [vars record]. rewrite (Hsnr eq_refl).
    eexists. split; [reflexivity|]. unfold panel_actions. cbn.
    rewrite <- !app_assoc. repeat split.
  - unfold nbind, nret. eexists. split; [reflexivity|].
    unfold panel_actions. cbn. rewrite <- !app_assoc. repeat split.
Qed.

(** The comparison cell when every name is bound and every library call
    returns: four panels, an SNR under the last three, each against the
    real part of the ground truth. *)
Lemma comparison_run (s : session) (best : ndarray R) (solution : @pyarray R)
      (vmin : R) (v1 v2 v3 : Score) :
  optimal_ks (vars s) = Some best ->
  sol s = Some solution ->
  np_min (np_real (kappa_true (vars s))) = Ok vmin ->
  snr (np_real (kappa_true (vars s))) (np_real (ks (vars s))) = Ok v1 ->
  snr (np_real (kappa_true (vars s))) best = Ok v2 ->
  snr (np_real (kappa_true (vars s))) (real_part solution) = Ok v3 ->
  exists s',
    comparison_cell snr np_min round2 s = (Done tt, s')
    /\ trace s'
       = trace s
         ++ [Subplots]
         ++ panel_actions (np_real (kappa_true (vars s)))
                          (np_real (kappa_true (vars s))) vmin 0
                          (nth 0 Titles.titles String.EmptyString) None
         ++ panel_actions (np_real (kappa_true (vars s)))
                          (np_real (ks (vars s))) vmin 1
                          (nth 1 Titles.titles String.EmptyString)
                          (Some (round2 v1))
         ++ panel_actions (np_real (kappa_true (vars s))) best vmin 2
                          (nth 2 Titles.titles String.EmptyString)
                          (Some (round2 v2))
         ++ panel_actions (np_real (kappa_true (vars s)))
                          (real_part solution) vmin 3
                          (nth 3 Titles.titles String.EmptyString)
                          (Some (round2 v3))
         ++ [PltShow]
    /\ outputs (vars s') = outputs (vars s).
Proof.
  intros Hbest Hsol Hmin H1 H2 H3.
  unfold comparison_cell.
  unfold nbind at 1, emit. unfold nbind at 1, nread. unfold nbind at 1, nread.
  unfold nbind at 1, nlookup. cbn [vars record]. rewrite Hbest.
  unfold nbind at 1. cbn [sol record]. rewrite Hsol.
  change (range 4) with [0; 1; 2; 3]. unfold np_real_id.
  set (truth := np_real (kappa_true (vars s))) in *.
  set (raw := np_real (ks (vars s))) in *.
  set (est := [truth; raw; best; real_part solution]).
  destruct (panel_run est 0 truth truth (nth 0 Titles.titles String.EmptyString)
                      vmin v1 (record Subplots s))
    as (s0 & Hp0 & Ht0 & Hs0 & Hv0);
    [lia | reflexivity | reflexivity | reflexivity | exact Hmin | discriminate |].
  destruct (panel_run est 1 truth raw (nth 1 Titles.titles String.EmptyString)
                      vmin v1 s0)
    as (s1 & Hp1 & Ht1 & Hs1 & Hv1);
    [lia | reflexivity | reflexivity | reflexivity | exact Hmin
     | intros _; exact H1 |].
  destruct (panel_run est 2 truth best (nth 2 Titles.titles String.EmptyString)
                      vmin v2 s1)
    as (s2 & Hp2 & Ht2 & Hs2 & Hv2);
    [lia | reflexivity | reflexivity | reflexivity | exact Hmin
     | intros _; exact H2 |].
  destruct (panel_run est 3 truth (real_part solution)
                      (nth 3 Titles.titles String.EmptyString) vmin v3 s2)
    as (s3 & Hp3 & Ht3 & Hs3 & Hv3);
    [lia | reflexivity | reflexivity | reflexivity | exact Hmin
     | intros _; exact H3 |].
  unfold nbind at 1. cbn [nfor].
  rewrite (nbind_done _ _ _ _ _ Hp0), (nbind_done _ _ _ _ _ Hp1),
          (nbind_done _ _ _ _ _ Hp2), (nbind_done _ _ _ _ _ Hp3).
  unfold nret, emit. eexists. split; [reflexivity|].
  cbn [trace vars record]. split.
  - rewrite Ht3, Ht2, Ht1, Ht0. cbn [trace record Z.gtb Z.compare].
    rewrite <- !app_assoc. reflexivity.
  - rewrite Hv3, Hv2, Hv1, Hv0. reflexivity.
Qed.

(** A search in which some candidate scored more than 0. *)
Lemma gridsearch_found (B : Z -> ndarray R) (V : Z -> Score) (n : Z)
      (w w' : @world R Score) :
  0 <= n ->
  valid_run gaussian_filter snr (np_real (ks w)) (np_real (kappa_true w)) B V n ->
  gridsearch zero gt gaussian_filter snr n w = (Ok tt, w') ->
  (exists c, 1 <= c <= n /\ gt (V c) zero = true) ->
  ks w' = ks w /\ kappa_true w' = kappa_true w
  /\ 1 <= smooth_max w' <= n
  /\ snr_max w' = V (smooth_max w')
  /\ optimal_ks w' = Some (B (smooth_max w')).
Proof.
  intros Hn Hvalid Hrun (c & Hc & Hgt).
  destruct (gridsearch_valid zero gt gaussian_filter snr B V n w Hn Hvalid)
    as (u & Hrun' & Hks & Hkt & Hbest & _ & Hopt & _).
  rewrite Hrun in Hrun'. injection Hrun' as <-.
  split; [exact Hks|]. split; [exact Hkt|].
  destruct (running_best_origin gt V (range n) (zero, 0))
    as [Heq | (i & Hi & Heq)].
  - exfalso.
    assert (Hlow : gt (V (c - 1 + 1)) zero = false).
    { apply (running_best_zero zero gt V (range n)).
      - intros j Hj. apply range_In in Hj. lia.
      - now rewrite Heq.
      - apply range_In. lia. }
    replace (c - 1 + 1) with c in Hlow by lia. congruence.
  - rewrite Heq in Hbest. injection Hbest as Hscore Hscale.
    apply range_In in Hi. rewrite Hscale.
    repeat split; try assumption; try lia. now rewrite <- Hscale.
Qed.

(** X8: in the comparison figure drawn after a gridsearch that found a
    candidate scoring more than 0, the panel of the optimally smoothed
    map shows the candidate of the returned scale, and the SNR under it
    is the rounded best score of the search: the scorer is called again
    on the same two fields.  The first panel, the ground truth, gets no
    SNR; the figure leaves the outputs of the search as they are. *)
Theorem comparison_labels_best_score
        (B : Z -> ndarray R) (V : Z -> Score) (n : Z) (w : @world R Score)
        (s : session) (solution : @pyarray R) (vmin : R) (v1 v3 : Score) :
  0 <= n ->
  valid_run gaussian_filter snr (np_real (ks w)) (np_real (kappa_true w)) B V n ->
  gridsearch zero gt gaussian_filter snr n w = (Ok tt, vars s) ->
  (exists c, 1 <= c <= n /\ gt (V c) zero = true) ->
  sol s = Some solution ->
  np_min (np_real (kappa_true w)) = Ok vmin ->
  snr (np_real (kappa_true w)) (np_real (ks w)) = Ok v1 ->
  snr (np_real (kappa_true w)) (real_part solution) = Ok v3 ->
  exists s',
    comparison_cell snr np_min round2 s = (Done tt, s')
    /\ trace s'
       = trace s
         ++ [Subplots]
         ++ panel_actions (np_real (kappa_true w)) (np_real (kappa_true w))
                          vmin 0 (nth 0 Titles.titles String.EmptyString) None
         ++ panel_actions (np_real (kappa_true w)) (np_real (ks w))
                          vmin 1 (nth 1 Titles.titles String.EmptyString)
                          (Some (round2 v1))
         ++ panel_actions (np_real (kappa_true w)) (B (smooth_max (vars s)))
                          vmin 2 (nth 2 Titles.titles String.EmptyString)
                          (Some (round2 (snr_max (vars s))))
         ++ panel_actions (np_real (kappa_true w)) (real_part solution)
                          vmin 3 (nth 3 Titles.titles String.EmptyString)
                          (Some (round2 v3))
         ++ [PltShow]
    /\ outputs (vars s') = outputs (vars s).
Proof.
  intros Hn Hvalid Hrun Hsome Hsol Hmin H1 H3.
  destruct (gridsearch_found B V n w (vars s) Hn Hvalid Hrun Hsome)
    as (Hks & Hkt & Hscale & Hscore & Hopt).
  assert (H2 : snr (np_real (kappa_true w)) (B (smooth_max (vars s)))
               = Ok (snr_max (vars s))).
  { rewrite Hscore. apply (proj2 Hvalid). exact Hscale. }
  rewrite <- Hkt in Hmin, H1, H2, H3. rewrite <- Hks in H1.
  destruct (comparison_run s _ solution vmin v1 _ v3 Hopt Hsol Hmin H1 H2 H3)
    as (s' & Hcell & Htrace & Hout).
  exists s'. rewrite <- Hkt, <- Hks. repeat split; assumption.
Qed.

(** X9: when the estimate is computed and the gridsearch then raises, in
    a namespace where [optimal_ks] is not bound yet, the cell ends with
    that exception, and the comparison cell run next fails with a
    NameError right after opening the empty figure: no panel is drawn and
    no score is computed. *)
Theorem comparison_after_failed_search
        (n : Z) (s : session) (k : ndarray (R * R)) (e : exn) :
  optimal_ks (vars s) = None ->
  ks_estimate (data s) = Ok k ->
  fst (gridsearch zero gt gaussian_filter snr n (set_ks k (vars s))) = Raise e ->
  exists s',
    ks_cell_steps zero gt gaussian_filter snr ks_estimate analyse n s
    = (Failed (Cell e), s')
    /\ comparison_cell snr np_min round2 s'
       = (Failed (Cell NameError), record Subplots s').
Proof.
  intros Hnone Hk Hraise.
  destruct (ks_cell_failure n s k e Hk Hraise)
    as (s' & Hrun & _ & _ & _ & Hopt).
  exists s'. split; [exact Hrun|].
  unfold comparison_cell.
  unfold nbind at 1, emit. unfold nbind at 1, nread. unfold nbind at 1, nread.
  unfold nbind at 1, nlookup. cbn [vars record].
  rewrite Hopt, Hnone. reflexivity.
Qed.

End NotebookRuns.

(** ** The extra properties on small integer fields *)

(** Scale 5 gives candidate 2 and score 8; scale 3 was the best. *)
Lemma gridsearch_leaves_last_candidate_witness :
  exists w',
    Demo.run 5 Demo.w_tie = (Ok tt, w')
    /\ smoothed_ks w' = Some (Demo.candidate [[15]] 5)
    /\ snr_iter w' = Some (Demo.candidate_score [[3]] [[15]] 5)
    /\ optimal_ks w' = Some (Demo.candidate [[15]] (smooth_max w')).
Proof.
  apply (gridsearch_leaves_last_candidate 0 Z.gtb Demo.blur Demo.score
           (Demo.candidate [[15]]) (Demo.candidate_score [[3]] [[15]])
           5 Demo.w_tie).
  - lia.
  - apply demo_valid_run.
Defined.

Lemma gridsearch_scale_zero_iff_witness :
  exists w',
    Demo.run 2 Demo.w_low = (Ok tt, w')
    /\ (smooth_max w' = 0 <->
        forall s, 1 <= s <= 2 ->
                  (Demo.candidate_score [[1]] [[-4]] s >? 0) = false)
    /\ (smooth_max w' <> 0 ->
        1 <= smooth_max w' <= 2
        /\ snr_max w' = Demo.candidate_score [[1]] [[-4]] (smooth_max w')
        /\ optimal_ks w' = Some (Demo.candidate [[-4]] (smooth_max w'))).
Proof.
  apply (gridsearch_scale_zero_iff 0 Z.gtb Demo.blur Demo.score
           (Demo.candidate [[-4]]) (Demo.candidate_score [[1]] [[-4]])
           2 Demo.w_low).
  - lia.
  - apply demo_valid_run.
Defined.

(** Two steps against five on [w_tie]: best score 5 at scale 2, then 9 at
    scale 3. *)
Lemma gridsearch_longer_scan_witness :
  exists wn wm,
    Demo.run 2 Demo.w_tie = (Ok tt, wn)
    /\ Demo.run 5 Demo.w_tie = (Ok tt, wm)
    /\ (snr_max wn >? snr_max wm) = false
    /\ smooth_max wn <= smooth_max wm
    /\ (smooth_max wm <= 2 -> outputs wm = outputs wn).
Proof.
  apply (gridsearch_longer_scan 0 Z.gtb Demo.blur Demo.score
           (Demo.candidate [[15]]) (Demo.candidate_score [[3]] [[15]])
           2 5 Demo.w_tie).
  - lia.
  - apply demo_valid_run.
  - exact gtb_irrefl.
  - exact gtb_trans.
Defined.

(** A blur that gives up above scale 2, in a scan of five steps. *)
Lemma gridsearch_blur_raises_at_witness :
  exists w',
    gridsearch 0 Z.gtb (DemoNotebook.blur_upto 2) Demo.score 5 Demo.w_tie
    = (Raise LibraryError, w')
    /\ calls w' = calls Demo.w_tie
                  ++ scan_calls [[15]] [[3]] (Demo.candidate [[15]]) (range (3 - 1))
                  ++ [GaussianFilter [[15]] 3]
    /\ (snr_max w', smooth_max w')
       = running_best Z.gtb (Demo.candidate_score [[3]] [[15]]) (range (3 - 1)) (0, 0)
    /\ optimal_ks w' = optimal_ks Demo.w_tie.
Proof.
  apply (gridsearch_blur_raises_at 0 Z.gtb (DemoNotebook.blur_upto 2) Demo.score
           (Demo.candidate [[15]]) (Demo.candidate_score [[3]] [[15]])
           5 3 LibraryError Demo.w_tie).
  - lia.
  - intros s Hs. assert (Hc : s = 1 \/ s = 2) by lia.
    destruct Hc as [-> | ->]; split; reflexivity.
  - reflexivity.
Defined.

(** The candidate of scale 3 equals the truth, and the dividing scorer
    fails on it. *)
Lemma gridsearch_scorer_raises_at_witness :
  exists w',
    gridsearch 0 Z.gtb Demo.blur DemoNotebook.score_ratio 5 Demo.w_tie
    = (Raise LibraryError, w')
    /\ calls w' = calls Demo.w_tie
                  ++ scan_calls [[15]] [[3]] (Demo.candidate [[15]]) (range (3 - 1))
                  ++ [GaussianFilter [[15]] 3; Snr [[3]] [[3]]]
    /\ (snr_max w', smooth_max w')
       = running_best Z.gtb (Demo.candidate_score [[3]] [[15]]) (range (3 - 1)) (0, 0)
    /\ optimal_ks w' = optimal_ks Demo.w_tie.
Proof.
  apply (gridsearch_scorer_raises_at 0 Z.gtb Demo.blur DemoNotebook.score_ratio
           (Demo.candidate [[15]]) (Demo.candidate_score [[3]] [[15]])
           5 3 [[3]] LibraryError Demo.w_tie).
  - lia.
  - intros s Hs. assert (Hc : s = 1 \/ s = 2) by lia.
    destruct Hc as [-> | ->]; split; reflexivity.
  - reflexivity.
  - reflexivity.
Defined.

Example ks_cell_tie :
  trace (snd (ks_cell_steps 0 Z.gtb Demo.blur Demo.score DemoNotebook.estimate
                            DemoNotebook.analyse 5 DemoNotebook.s_tie))
  = [KsEstimate [[15]]; Imshow [[3]]; AxisOff; PltShow;
     Analyse (Demo.complex 0 [[3]]) (RealArray [[3]]); Print 3 9 0].
Proof. reflexivity. Qed.

Lemma ks_cell_shows_best_witness :
  exists s',
    ks_cell_steps 0 Z.gtb Demo.blur Demo.score DemoNotebook.estimate
                  DemoNotebook.analyse 5 DemoNotebook.s_tie
    = (Done tt, s')
    /\ ks (vars s') = Demo.complex 0 [[15]]
    /\ 0 <= smooth_max (vars s') <= 5
    /\ optimal_ks (vars s')
       = Some (Demo.candidate [[15]] (smooth_max (vars s')))
    /\ trace s'
       = trace DemoNotebook.s_tie
         ++ [KsEstimate (data DemoNotebook.s_tie);
             Imshow (Demo.candidate [[15]] (smooth_max (vars s')));
             AxisOff; PltShow;
             Analyse (kappa_true (vars DemoNotebook.s_tie))
                     (RealArray (Demo.candidate [[15]] (smooth_max (vars s'))));
             Print (smooth_max (vars s'))
                   (fst (Demo.candidate_score [[3]] [[15]]
                                              (smooth_max (vars s')), 0))
                   (snd (Demo.candidate_score [[3]] [[15]]
                                              (smooth_max (vars s')), 0))].
Proof.
  apply (ks_cell_shows_best 0 Z.gtb Demo.blur Demo.score DemoNotebook.estimate
           DemoNotebook.analyse
           (Demo.candidate [[15]]) (Demo.candidate_score [[3]] [[15]])
           (fun c => (Demo.candidate_score [[3]] [[15]] c, 0))
           5 DemoNotebook.s_tie (Demo.complex 0 [[15]])).
  - lia.
  - reflexivity.
  - apply demo_valid_run.
  - intros c Hc. reflexivity.
Defined.

(** The scorer fails on 4x4 against 8x8: the cell has called the
    estimator and drawn nothing. *)
Lemma ks_cell_failure_draws_nothing_witness :
  exists s',
    ks_cell_steps 0 Z.gtb Demo.blur Demo.score DemoNotebook.estimate
                  DemoNotebook.analyse 30 DemoNotebook.s_mismatch
    = (Failed (Cell DimensionMismatch), s')
    /\ trace s' = trace DemoNotebook.s_mismatch
                  ++ [KsEstimate (data DemoNotebook.s_mismatch)]
    /\ ks (vars s') = Demo.complex 0 (Demo.zeros 4 4)
    /\ optimal_ks (vars s') = optimal_ks (vars DemoNotebook.s_mismatch).
Proof.
  apply (ks_cell_failure_draws_nothing 0 Z.gtb Demo.blur Demo.score
           DemoNotebook.estimate DemoNotebook.analyse
           30 DemoNotebook.s_mismatch (Demo.complex 0 (Demo.zeros 4 4))
           DimensionMismatch); reflexivity.
Defined.

Example comparison_tie :
  trace (snd (comparison_cell Demo.score DemoNotebook.np_min DemoNotebook.round2
                              DemoNotebook.s_done))
  = [Subplots]
    ++ panel_actions [[3]] [[3]] 3 0 (nth 0 Titles.titles String.EmptyString) None
    ++ panel_actions [[3]] [[15]] 3 1 (nth 1 Titles.titles String.EmptyString)
                     (Some (-135))
    ++ panel_actions [[3]] [[3]] 3 2 (nth 2 Titles.titles String.EmptyString)
                     (Some 9)
    ++ panel_actions [[3]] [[4]] 3 3 (nth 3 Titles.titles String.EmptyString)
                     (Some 8)
    ++ [PltShow].
Proof. reflexivity. Qed.

Lemma comparison_labels_best_score_witness :
  exists s',
    comparison_cell Demo.score DemoNotebook.np_min DemoNotebook.round2
                    DemoNotebook.s_done
    = (Done tt, s')
    /\ trace s'
       = trace DemoNotebook.s_done
         ++ [Subplots]
         ++ panel_actions (np_real (kappa_true Demo.w_tie))
                          (np_real (kappa_true Demo.w_tie)) 3 0
                          (nth 0 Titles.titles String.EmptyString) None
         ++ panel_actions (np_real (kappa_true Demo.w_tie))
                          (np_real (ks Demo.w_tie)) 3 1
                          (nth 1 Titles.titles String.EmptyString)
                          (Some (DemoNotebook.round2 (-135)))
         ++ panel_actions (np_real (kappa_true Demo.w_tie))
                          (Demo.candidate [[15]]
                                          (smooth_max (vars DemoNotebook.s_done)))
                          3 2 (nth 2 Titles.titles String.EmptyString)
                          (Some (DemoNotebook.round2
                                   (snr_max (vars DemoNotebook.s_done))))
         ++ panel_actions (np_real (kappa_true Demo.w_tie))
                          (real_part (ComplexArray [[(4, 1)]])) 3 3
                          (nth 3 Titles.titles String.EmptyString)
                          (Some (DemoNotebook.round2 8))
         ++ [PltShow]
    /\ outputs (vars s') = outputs (vars DemoNotebook.s_done).
Proof.
  apply (comparison_labels_best_score 0 Z.gtb Demo.blur Demo.score
           DemoNotebook.np_min DemoNotebook.round2
           (Demo.candidate [[15]]) (Demo.candidate_score [[3]] [[15]])
           5 Demo.w_tie DemoNotebook.s_done (ComplexArray [[(4, 1)]]) 3 (-135) 8).
  - lia.
  - apply demo_valid_run.
  - vm_compute. reflexivity.
  - exists 2. split; [lia | reflexivity].
  - reflexivity.
  - reflexivity.
  - reflexivity.
  - reflexivity.
Defined.

Lemma comparison_after_failed_search_witness :
  exists s',
    ks_cell_steps 0 Z.gtb Demo.blur Demo.score DemoNotebook.estimate
                  DemoNotebook.analyse 30 DemoNotebook.s_mismatch
    = (Failed (Cell DimensionMismatch), s')
    /\ comparison_cell Demo.score DemoNotebook.np_min DemoNotebook.round2 s'
       = (Failed (Cell NameError), record Subplots s').
Proof.
  apply (comparison_after_failed_search 0 Z.gtb Demo.blur Demo.score
           DemoNotebook.estimate DemoNotebook.analyse
           DemoNotebook.np_min DemoNotebook.round2
           30 DemoNotebook.s_mismatch (Demo.complex 0 (Demo.zeros 4 4))
           DimensionMismatch); reflexivity.
Defined.

(** The cell as the notebook has it, thirty steps, on the same session. *)
Example ks_cell_thirty :
  trace (snd (ks_cell 0 Z.gtb Demo.blur Demo.score DemoNotebook.estimate
                      DemoNotebook.analyse DemoNotebook.s_tie))
  = [KsEstimate [[15]]; Imshow [[3]]; AxisOff; PltShow;
     Analyse (Demo.complex 0 [[3]]) (RealArray [[3]]); Print 3 9 0].
Proof. reflexivity. Qed.
